(** * paddle-server: the PDF processing pipeline and its admission gate

    A shallow embedding of [src/utils/utils.py] (image normalisation,
    base64 encoding, remote layout parsing, the per-page loop of
    [process_pdf_file]), of the [/process-pdf] handler of [src/app.py]
    (semaphore admission, temporary files, exception mapping, and the
    event loop that interleaves requests) and of the command-line mode of
    [src/main.py], followed by the properties of the specification and
    further properties of the code, stated over that embedding.

    Conventions.
    - Python exceptions are values of [exn]; a computation that may raise
      returns [result A].
    - Python floats are IEEE 754 binary64 values, [spec_float] with
      precision 53 and maximal exponent 1024; every operation is the
      correctly rounded one of [SpecFloat].
    - A Python [str] is a [string] whose characters stand for code points
      below 256.
    - What the outside world decides (the uploaded bytes and whether
      [fitz.open] opens them, how each page renders and reads back,
      whether OpenCV produces a resized or an encoded image, what the
      remote service answers, whether [asyncio.wait_for] completes the
      acquisition, whether the upload can be stored in its temporary
      file, what the command-line parser does) is an explicit input.
    - The file-system calls that create and remove the image directory
      and remove the temporary file ([mkdir], [rmtree], [unlink]) are
      taken to succeed.
    - Writes to standard output ([print]) are not modelled. *)

From Stdlib Require Import ZArith NArith Ascii Floats.SpecFloat Lia.
From stdpp Require Import base option list gmap strings pretty.

Open Scope Z_scope.

(* ===================================================================== *)
(** * Exceptions and fallible computations                                *)
(* ===================================================================== *)

Inductive exn : Type :=
  | ZeroDivisionError
  | OverflowError
  | ValueError
  | TypeError
  | AttributeError
  | KeyError (key : string)
  | AssertionError
  | Cv2Error                      (* cv2.error *)
  | FileNotFoundError
  | OSError                       (* a failed file operation, as on a full disk *)
  | FileDataError                 (* fitz: the bytes are no document it opens *)
  | RenderError                   (* fitz: get_pixmap / save failed *)
  | ConnectionError               (* requests.exceptions.ConnectionError *)
  | JSONDecodeError
  | TimeoutError                  (* asyncio.TimeoutError *)
  | CancelledError                (* asyncio.CancelledError *)
  | HTTPException (status_code : Z) (detail : string).

(** [except Exception] catches everything but the [BaseException]-only
    classes; [asyncio.CancelledError] is one of those. *)
Definition is_Exception (e : exn) : bool :=
  match e with
  | CancelledError => false
  | _ => true
  end.

Inductive result (A : Type) : Type :=
  | Ok (a : A)
  | Raise (e : exn).
Arguments Ok {A} a.
Arguments Raise {A} e.

#[global] Instance result_ret : MRet result := fun A a => Ok a.
#[global] Instance result_bind : MBind result := fun A B f r =>
  match r with
  | Ok a => f a
  | Raise e => Raise e
  end.

Definition is_Ok {A} (r : result A) : bool :=
  match r with Ok _ => true | Raise _ => false end.

(* ===================================================================== *)
(** * Python numbers                                                      *)
(* ===================================================================== *)

Module PyNum.

Definition prec : Z := 53.
Definition emax : Z := 1024.

(** [float(n)] for an int [n]: round to nearest, ties to even;
    [OverflowError] when [n] is too large. *)
Definition float_of_int (n : Z) : result spec_float :=
  match binary_normalize prec emax n 0 false with
  | S754_infinity _ => Raise OverflowError
  | x => Ok x
  end.

(** [a / b] for two ints: the correctly rounded quotient. *)
Definition int_truediv (a b : Z) : result spec_float :=
  if b =? 0 then Raise ZeroDivisionError
  else if a =? 0 then Ok (S754_zero (b <? 0))
  else
    let '(mz, ez, lz) := SFdiv_core_binary prec emax (Z.abs a) 0 (Z.abs b) 0 in
    match binary_round_aux prec emax (xorb (a <? 0) (b <? 0)) mz ez lz with
    | S754_infinity _ => Raise OverflowError
    | x => Ok x
    end.

(** [n * x] for an int [n] and a float [x]: [n] is converted first. *)
Definition int_mul_float (n : Z) (x : spec_float) : result spec_float :=
  nf ← float_of_int n; Ok (SFmul prec emax nf x).

(** [int(x)]: truncation toward zero. *)
Definition int_of_float (x : spec_float) : result Z :=
  match x with
  | S754_zero _ => Ok 0
  | S754_finite s m e =>
      let v := match e with
               | Zneg p => Z.shiftr (Zpos m) (Zpos p)
               | _ => Z.shiftl (Zpos m) e
               end in
      Ok (if s then - v else v)
  | S754_infinity _ => Raise OverflowError
  | S754_nan => Raise ValueError
  end.

(** Python's [round(x)] on a float: nearest integer, ties to even.  It is
    used by the specification's wording only. *)
Definition round_half_even (x : spec_float) : result Z :=
  match x with
  | S754_zero _ => Ok 0
  | S754_finite s m e =>
      let v := match e with
               | Zneg p =>
                   let q := Z.shiftr (Zpos m) (Zpos p) in
                   let r := Zpos m - Z.shiftl q (Zpos p) in
                   let half := Z.shiftl 1 (Zpos p - 1) in
                   match r ?= half with
                   | Lt => q
                   | Gt => q + 1
                   | Eq => if Z.even q then q else q + 1
                   end
               | _ => Z.shiftl (Zpos m) e
               end in
      Ok (if s then - v else v)
  | S754_infinity _ => Raise OverflowError
  | S754_nan => Raise ValueError
  end.

End PyNum.

(* ===================================================================== *)
(** * Image normalisation: [resize_longest_side]                          *)
(* ===================================================================== *)

(** [image.shape[:2]], as (height, width). *)
Definition shape : Type := (Z * Z)%type.

(** One page of an uploaded document, as far as the pipeline can observe
    it. *)
Record PageImage : Type := {
  (** [page.get_pixmap] and [pix.save] succeed *)
  renders : bool;
  (** [cv2.imread] of the saved file: [None], or the image's shape *)
  imread : option shape;
  (** [cv2.resize] of the image to a size that is not empty: whether
      OpenCV produces the output; it raises [cv2.error] when it cannot,
      as when the memory for it cannot be allocated *)
  resizes : shape → bool;
  (** [cv2.imencode('.png', _)] of the image resized to a shape, base64
      encoded; [None] when OpenCV reports failure *)
  imencode : shape → option string
}.

(** An OpenCV image in memory, a [numpy.ndarray]: the page it shows and
    its shape. *)
Definition ndarray : Type := (PageImage * shape)%type.

(** [cv2.resize(image, (new_width, new_height), ...)]: OpenCV rejects an
    empty destination size; whether it produces an output of any other
    size is for the machine to decide. *)
Definition cv2_resize (image : ndarray) (new_width new_height : Z)
  : result ndarray :=
  if (0 <? new_width) && (0 <? new_height) then
    if resizes image.1 (new_height, new_width)
    then Ok (image.1, (new_height, new_width))
    else Raise Cv2Error
  else Raise Cv2Error.

Definition resize_longest_side (image : ndarray) (longest_side : Z)
  : result ndarray :=
  let '(height, width) := image.2 in
  if height <? width then
    scale ← PyNum.int_truediv longest_side width;
    let new_width := longest_side in
    scaled ← PyNum.int_mul_float height scale;
    new_height ← PyNum.int_of_float scaled;
    cv2_resize image new_width new_height
  else
    scale ← PyNum.int_truediv longest_side height;
    let new_height := longest_side in
    scaled ← PyNum.int_mul_float width scale;
    new_width ← PyNum.int_of_float scaled;
    cv2_resize image new_width new_height.

(** The normalisation as the specification words it: both sides are
    [round (side * scale)] with [scale = T / max (width, height)]. *)
Definition spec_normalize (image : shape) (T : Z) : result shape :=
  let '(height, width) := image in
  scale ← PyNum.int_truediv T (Z.max width height);
  scaled_width ← PyNum.int_mul_float width scale;
  new_width ← PyNum.round_half_even scaled_width;
  scaled_height ← PyNum.int_mul_float height scale;
  new_height ← PyNum.round_half_even scaled_height;
  Ok (new_height, new_width).

(* ===================================================================== *)
(** * JSON values and the Python operations applied to them               *)
(* ===================================================================== *)

#[warnings="-register-all"]
Inductive json : Type :=
  | JNull
  | JBool (b : bool)
  | JInt (n : Z)
  | JFloat (x : spec_float)
  | JStr (s : string)
  | JList (l : list json)
  | JDict (d : list (string * json)).

(** A Python dict: keys in insertion order, no key twice. *)
Definition dict : Type := list (string * json).

Fixpoint dict_get (k : string) (d : dict) : option json :=
  match d with
  | [] => None
  | (k', v) :: d' => if String.eqb k k' then Some v else dict_get k d'
  end.

(** [d[k] = v]: an existing key keeps its position. *)
Fixpoint dict_set (k : string) (v : json) (d : dict) : dict :=
  match d with
  | [] => [(k, v)]
  | (k', v') :: d' =>
      if String.eqb k k' then (k, v) :: d' else (k', v') :: dict_set k v d'
  end.

(** [o[k]] with a string key. *)
Definition getitem (o : json) (k : string) : result json :=
  match o with
  | JDict d =>
      match dict_get k d with
      | Some v => Ok v
      | None => Raise (KeyError k)
      end
  | _ => Raise TypeError
  end.

Fixpoint chars (s : string) : list json :=
  match s with
  | EmptyString => []
  | String c s' => JStr (String c EmptyString) :: chars s'
  end.

(** [iter(o)]: what a [for] loop over [o] visits. *)
Definition py_iter (o : json) : result (list json) :=
  match o with
  | JList l => Ok l
  | JStr s => Ok (chars s)
  | JDict d => Ok (map (fun kv => JStr kv.1) d)
  | _ => Raise TypeError
  end.

(** [len(o)] *)
Definition py_len (o : json) : result Z :=
  match o with
  | JStr s => Ok (Z.of_nat (String.length s))
  | JList l => Ok (Z.of_nat (length l))
  | JDict d => Ok (Z.of_nat (length d))
  | _ => Raise TypeError
  end.

(** Whether [o.count] exists ([str] and [list] have it). *)
Definition has_count (o : json) : bool :=
  match o with
  | JStr _ | JList _ => true
  | _ => false
  end.

(** The text [json.dumps] produces, kept as the document it denotes;
    [json.loads] reads that document back. *)
Inductive json_text : Type := Dumped (j : json).
Definition json_dumps (j : json) : json_text := Dumped j.
Definition json_loads (t : json_text) : json := let 'Dumped j := t in j.

(* ===================================================================== *)
(** * The outside world of one run                                        *)
(* ===================================================================== *)

(** The bytes of a file, by what [fitz.open] makes of them: it rejects
    them ([FileDataError]), or it opens them as a document with pages.
    The documents it opens are the PDFs and the files of any other type
    it recognises from their content, whatever their name. *)
Inductive FileBytes : Type :=
  | Unopenable
  | Document (pages : list PageImage).

(** [requests.Response]: the status and the decoded body ([None] when the
    body is not JSON). *)
Record HttpResponse : Type := {
  status_code : Z;
  body : option json
}.

(** The two places of the file system the program touches: the directory
    [temp_pdf_images] (absent, or its [page_NNN.png] entries keyed by
    [NNN]) and the files of the system temporary directory. *)
Record FS : Type := {
  temp_pdf_images : option (gmap nat PageImage);
  tmp : gmap string FileBytes
}.

Definition set_temp_pdf_images (d : option (gmap nat PageImage)) (fs : FS) : FS :=
  {| temp_pdf_images := d; tmp := tmp fs |}.

Definition set_tmp (t : gmap string FileBytes) (fs : FS) : FS :=
  {| temp_pdf_images := temp_pdf_images fs; tmp := t |}.

(* ===================================================================== *)
(** * [src/utils/utils.py]                                                *)
(* ===================================================================== *)

Section Pipeline.

(** [requests.post(api_url, json=payload)]: the remote layout-parsing
    service, a black box. *)
Variable service : string → json → result HttpResponse.

(** The pipeline passes arrays only; the file-path branch of the source
    function is not used by it. *)
Definition encode_image_to_base64 (image_input : ndarray) : result string :=
  let '(page, sh) := image_input in
  match imencode page sh with
  | Some image_data => Ok image_data
  | None => Raise ValueError
  end.

Definition create_layout_parsing_payload (image_data : string) (file_type : Z) : json :=
  JDict [("file", JStr image_data); ("fileType", JInt file_type)].

Definition call_layout_parsing_api (api_url : string) (payload : json)
  : result HttpResponse :=
  service api_url payload.

Definition process_layout_parsing_result (response : HttpResponse) : result json :=
  if status_code response =? 200 then
    match body response with
    | Some j => getitem j "result"
    | None => Raise JSONDecodeError
    end
  else Raise AssertionError.

(** [f"page{i+1}"] *)
Definition page_key (i : nat) : string := "page" +:+ pretty (S i).

Fixpoint extract_loop (i : nat) (items : list json) (markdown_dict : dict)
  : result dict :=
  match items with
  | [] => Ok markdown_dict
  | res :: rest =>
      markdown ← getitem res "markdown";
      text ← getitem markdown "text";
      extract_loop (S i) rest (dict_set (page_key i) text markdown_dict)
  end.

Definition extract_markdown_from_result (result_ : json) : result dict :=
  layout_parsing_results ← getitem result_ "layoutParsingResults";
  items ← py_iter layout_parsing_results;
  extract_loop 0 items [].

(** [page.get_pixmap] and [pix.save] for each page in turn;
    [page_{i+1:03d}.png] is entry [i+1] of the directory. *)
Fixpoint save_pages (i : nat) (pages : list PageImage)
    (dir : gmap nat PageImage) (image_paths : list nat)
  : gmap nat PageImage * result (list nat) :=
  match pages with
  | [] => (dir, Ok image_paths)
  | pg :: rest =>
      if renders pg
      then save_pages (S i) rest (<[S i := pg]> dir) (image_paths ++ [S i])
      else (dir, Raise RenderError)
  end.

Definition pdf_to_images (pdf_input : string) (fs : FS) : FS * result (list nat) :=
  (* pathlib.Path(output_dir).mkdir(exist_ok=True) *)
  let dir := default ∅ (temp_pdf_images fs) in
  let fs1 := set_temp_pdf_images (Some dir) fs in
  (* fitz.open(pdf_input) *)
  match tmp fs !! pdf_input with
  | None => (fs1, Raise FileNotFoundError)
  | Some Unopenable => (fs1, Raise FileDataError)
  | Some (Document pages) =>
      let '(dir', r) := save_pages 0 pages dir [] in
      (set_temp_pdf_images (Some dir') fs1, r)
  end.

Definition cv2_imread (fs : FS) (image_path : nat) : option ndarray :=
  dir ← temp_pdf_images fs;
  page ← dir !! image_path;
  sh ← imread page;
  Some (page, sh).

(** The statistics printed for one extracted text: [len(content)] and
    [content.count('\n') + 1]. *)
Definition line_stats (content : json) : result () :=
  _ ← py_len content;
  if has_count content then Ok () else Raise AttributeError.

Fixpoint for_each {A} (f : A → result ()) (l : list A) : result () :=
  match l with
  | [] => Ok ()
  | x :: l' => _ ← f x; for_each f l'
  end.

Definition page_json (page : Z) (content : json) : json :=
  JDict [("page", JInt page);
         ("ocrContent",
          JDict [("backend", JStr "pipeline");
                 ("version", JStr "2.5.4");
                 ("results",
                  JDict [("image", JDict [("md_content", content)])])])].

(** [page["ocrContent"]["results"]["image"]["md_content"]] *)
Definition md_content (page : json) : result json :=
  ocr_content ← getitem page "ocrContent";
  results ← getitem ocr_content "results";
  img ← getitem results "image";
  getitem img "md_content".

(** The body of the [for i, image_path in enumerate(image_paths)] loop:
    the entries it appends to [all_markdowns]. *)
Definition process_image (api_url : string) (longest_side : Z) (fs : FS)
    (i : nat) (image_path : nat) : result (list json) :=
  match cv2_imread fs image_path with
  | None => Ok []                                   (* continue *)
  | Some image =>
      resized_image ← resize_longest_side image longest_side;
      image_data ← encode_image_to_base64 resized_image;
      let payload := create_layout_parsing_payload image_data 1 in
      response ← call_layout_parsing_api api_url payload;
      result_ ← process_layout_parsing_result response;
      page_markdowns ← extract_markdown_from_result result_;
      _ ← for_each (fun kv => line_stats kv.2) page_markdowns;
      Ok (map (fun kv => page_json (Z.of_nat i + 1) kv.2) page_markdowns)
  end.

Fixpoint pages_loop (api_url : string) (longest_side : Z) (fs : FS)
    (i : nat) (image_paths : list nat) (all_markdowns : list json)
  : result (list json) :=
  match image_paths with
  | [] => Ok all_markdowns
  | image_path :: rest =>
      entries ← process_image api_url longest_side fs i image_path;
      pages_loop api_url longest_side fs (S i) rest (all_markdowns ++ entries)
  end.

(** [sum(len(page[...]["md_content"]) for page in all_markdowns)] *)
Fixpoint total_chars (all_markdowns : list json) : result Z :=
  match all_markdowns with
  | [] => Ok 0
  | page :: rest =>
      content ← md_content page;
      n ← py_len content;
      m ← total_chars rest;
      Ok (n + m)
  end.

Definition process_pdf_file (pdf_input api_url : string) (longest_side : Z)
    (fs : FS) : FS * result json_text :=
  (* try: *)
  let '(fs1, image_paths) := pdf_to_images pdf_input fs in
  let r :=
    image_paths ← image_paths;
    all_markdowns ← pages_loop api_url longest_side fs1 0 image_paths [];
    _ ← total_chars all_markdowns;
    Ok (json_dumps (JList all_markdowns)) in
  (* finally: if pathlib.Path(temp_dir).exists(): shutil.rmtree(temp_dir) *)
  (set_temp_pdf_images None fs1, r).

End Pipeline.

(* ===================================================================== *)
(** * [src/app.py]                                                        *)
(* ===================================================================== *)

(** [asyncio.Semaphore], as far as the application uses it.  The state is
    the counter [_value]; the application calls [acquire] only right after
    [locked()] answered [False], so the queue of waiters stays empty. *)
Module Semaphore.

Definition locked (value : nat) : bool := Nat.eqb value 0.

(** [acquire()] when it can return at once; [None] when it would wait. *)
Definition acquire (value : nat) : option nat :=
  if locked value then None else Some (Nat.pred value).

Definition release (value : nat) : nat := S value.

End Semaphore.

(** [str.lower()] on one character (code points below 256). *)
Definition lower_char (c : ascii) : ascii :=
  let n := nat_of_ascii c in
  if ((65 <=? n) && (n <=? 90) ||
      (192 <=? n) && (n <=? 222) && negb (n =? 215))%nat
  then ascii_of_nat (n + 32)
  else c.

Fixpoint lower (s : string) : string :=
  match s with
  | EmptyString => EmptyString
  | String c s' => String (lower_char c) (lower s')
  end.

Definition endswith (s suffix : string) : bool :=
  let n := String.length s in
  let m := String.length suffix in
  (m <=? n)%nat && String.eqb (String.substring (n - m) m s) suffix.

(** [str(e)]; the text of a library's own exception is left empty. *)
Definition str_exn (e : exn) : string :=
  match e with
  | HTTPException status detail => pretty status +:+ ": " +:+ detail
  | KeyError k => "'" +:+ k +:+ "'"
  | _ => ""
  end.

(** The process-wide state: the counter of [processing_semaphore] and the
    file system. *)
Record World : Type := {
  processing_semaphore : nat;
  fs : FS
}.

Definition set_semaphore (v : nat) (w : World) : World :=
  {| processing_semaphore := v; fs := fs w |}.

Definition set_fs (f : FS) (w : World) : World :=
  {| processing_semaphore := processing_semaphore w; fs := f |}.

(** What the client sends. *)
Record Request : Type := {
  filename : string;
  file : FileBytes;               (* the bytes [await file.read()] yields *)
  api_url : string;
  longest_side : Z
}.

(** How storing the upload in a temporary file ends. *)
Inductive Store : Type :=
  (** the file is created, written and closed *)
  | Stored
  (** [NamedTemporaryFile] raises [OSError]: there is no file *)
  | NotCreated
  (** [write], or the closing of the file, raises [OSError]: the file
      stays, holding [partial] *)
  | WriteFailed (partial : FileBytes).

(** What the platform decides while the request is served: whether the
    event loop runs the [acquire()] coroutine before the zero timeout of
    [asyncio.wait_for] cancels it, the name [NamedTemporaryFile] picks,
    and how storing the upload under that name ends. *)
Record Runtime : Type := {
  acquire_runs : bool;
  temp_file_path : string;
  store : Store
}.

Record JSONResponse : Type := {
  content : json;
  status : Z
}.

(** Whether a document holds no NaN and no infinity. *)
Fixpoint json_finite (j : json) : bool :=
  match j with
  | JFloat (S754_infinity _) | JFloat S754_nan => false
  | JList l => forallb json_finite l
  | JDict d => forallb (fun kv => let '(_, v) := kv in json_finite v) d
  | _ => true
  end.

(** [JSONResponse(content=..., status_code=...)]: the body is rendered at
    construction, with [allow_nan=False]. *)
Definition make_JSONResponse (content : json) (status_code : Z)
  : result JSONResponse :=
  if json_finite content
  then Ok {| content := content; status := status_code |}
  else Raise ValueError.

Definition busy : exn :=
  HTTPException 429 "系统繁忙，请稍后再试。当前仅支持单并发处理。".

Definition unsupported_file_type : exn :=
  HTTPException 400 "仅支持PDF文件".

(** [await asyncio.wait_for(processing_semaphore.acquire(), timeout=0)] *)
Definition wait_for_acquire (rt : Runtime) (value : nat) : result nat :=
  if acquire_runs rt then
    match Semaphore.acquire value with
    | Some value' => Ok value'
    | None => Raise TimeoutError
    end
  else Raise TimeoutError.

(** The concurrency check at the head of the handler.  It is one step of
    the model: what other requests could do while [wait_for] is awaited is
    not followed. *)
Definition admission (rt : Runtime) (value : nat) : result nat :=
  if negb (Semaphore.locked value) then
    match wait_for_acquire rt value with
    | Raise TimeoutError => Raise busy
    | r => r
    end
  else Raise busy.

(** [except Exception as e: raise HTTPException(status_code=500, ...)] *)
Definition except_Exception (r : result JSONResponse) : result JSONResponse :=
  match r with
  | Raise e =>
      if is_Exception e
      then Raise (HTTPException 500 ("处理PDF文件时发生错误: " +:+ str_exn e))
      else Raise e
  | Ok _ => r
  end.

(** [finally: processing_semaphore.release()] *)
Definition release_semaphore (w : World) : World :=
  set_semaphore (Semaphore.release (processing_semaphore w)) w.

(** The handler runs until it answers or until it suspends at
    [await file.read()], holding the semaphore. *)
Inductive Step : Type :=
  | Finished (r : result JSONResponse)
  | AwaitFileRead.

(** How the suspended handler is resumed. *)
Inductive ReadEvent : Type :=
  | ReadCompleted
  | ReadCancelled.

Section Handler.

Variable service : string → json → result HttpResponse.

Definition process_pdf_begin (rt : Runtime) (req : Request) (w : World)
  : World * Step :=
  match admission rt (processing_semaphore w) with
  | Raise e => (w, Finished (Raise e))
  | Ok value =>
      let w1 := set_semaphore value w in
      (* try: *)
      if negb (endswith (lower (filename req)) ".pdf")
      then (release_semaphore w1,
            Finished (except_Exception (Raise unsupported_file_type)))
      else (w1, AwaitFileRead)
  end.

(** From the temporary file to the response. *)
Definition process_upload (rt : Runtime) (req : Request) (fs0 : FS)
  : FS * result JSONResponse :=
  let file_content := file req in
  (* with tempfile.NamedTemporaryFile(delete=False, suffix=".pdf") as
     temp_file: temp_file.write(file_content); no try around it *)
  match store rt with
  | NotCreated => (fs0, Raise OSError)
  | WriteFailed partial =>
      (set_tmp (<[temp_file_path rt := partial]> (tmp fs0)) fs0,
       Raise OSError)
  | Stored =>
      let fs1 :=
        set_tmp (<[temp_file_path rt := file_content]> (tmp fs0)) fs0 in
      (* try: *)
      let '(fs2, result_json) :=
        process_pdf_file service (temp_file_path rt) (api_url req)
          (longest_side req) fs1 in
      let r :=
        result_json ← result_json;
        let result_data := json_loads result_json in
        total_pages ← py_len result_data;
        make_JSONResponse
          (JDict [("success", JBool true);
                  ("filename", JStr (filename req));
                  ("total_pages", JInt total_pages);
                  ("results", result_data)]) 200 in
      (* finally: if os.path.exists(temp_file_path):
                    os.unlink(temp_file_path) *)
      (set_tmp (delete (temp_file_path rt) (tmp fs2)) fs2, r)
  end.

Definition process_pdf_resume (rt : Runtime) (req : Request) (ev : ReadEvent)
    (w : World) : World * result JSONResponse :=
  let '(fs', r) :=
    match ev with
    | ReadCancelled => (fs w, Raise CancelledError)
    | ReadCompleted => process_upload rt req (fs w)
    end in
  (release_semaphore (set_fs fs' w), except_Exception r).

(** One request served without any other request in between. *)
Definition process_pdf (rt : Runtime) (req : Request) (ev : ReadEvent)
    (w : World) : World * result JSONResponse :=
  match process_pdf_begin rt req w with
  | (w1, Finished r) => (w1, r)
  | (w1, AwaitFileRead) => process_pdf_resume rt req ev w1
  end.

End Handler.

(** The HTTP status the client sees: that of the returned response, or
    that of the raised [HTTPException]; none when another exception
    leaves the handler. *)
Definition http_status (r : result JSONResponse) : option Z :=
  match r with
  | Ok resp => Some (status resp)
  | Raise (HTTPException status_code _) => Some status_code
  | Raise _ => None
  end.

(** The file system after the upload has been handled: once it is
    stored, neither the temporary file nor the image directory is there;
    a failure to store it leaves what the failure left. *)
Definition after_upload (rt : Runtime) (fs0 : FS) : FS :=
  match store rt with
  | Stored =>
      {| temp_pdf_images := None;
         tmp := delete (temp_file_path rt) (tmp fs0) |}
  | NotCreated => fs0
  | WriteFailed partial =>
      set_tmp (<[temp_file_path rt := partial]> (tmp fs0)) fs0
  end.

(* ===================================================================== *)
(** * The per-page loop, page by page                                     *)
(* ===================================================================== *)

Section PerPage.

Variable service : string → json → result HttpResponse.
Variables (api_url : string) (T : Z).

(** What the loop body appends for page [i+1], told from the page
    itself rather than from its saved file. *)
Definition page_entries (i : nat) (page : PageImage) : result (list json) :=
  match imread page with
  | None => Ok []
  | Some original_size =>
      resized_image ← resize_longest_side (page, original_size) T;
      image_data ← encode_image_to_base64 resized_image;
      response ← call_layout_parsing_api service api_url
                   (create_layout_parsing_payload image_data 1);
      result_ ← process_layout_parsing_result response;
      page_markdowns ← extract_markdown_from_result result_;
      _ ← for_each (fun kv => line_stats kv.2) page_markdowns;
      Ok (map (fun kv => page_json (Z.of_nat i + 1) kv.2) page_markdowns)
  end.

Fixpoint collect (i : nat) (pages : list PageImage) (acc : list json)
  : result (list json) :=
  match pages with
  | [] => Ok acc
  | page :: rest =>
      entries ← page_entries i page;
      collect (S i) rest (acc ++ entries)
  end.

End PerPage.

(** An entry of [all_markdowns]: a page object whose text has a length
    and a [count] method. *)
Definition entry_ok (e : json) : Prop :=
  ∃ page content, e = page_json page content ∧ has_count content = true.

(** The response built from the text [process_pdf_file] returned. *)
Definition response_of (req : Request) (result_json : result json_text)
  : result JSONResponse :=
  result_json ← result_json;
  let result_data := json_loads result_json in
  total_pages ← py_len result_data;
  make_JSONResponse
    (JDict [("success", JBool true);
            ("filename", JStr (filename req));
            ("total_pages", JInt total_pages);
            ("results", result_data)]) 200.

(* ===================================================================== *)
(** * Vocabulary of the properties                                        *)
(* ===================================================================== *)

Section Vocabulary.

Variable service : string → json → result HttpResponse.
Variables (api_url : string) (T : Z).

(** The page is read back, resized and encoded, and the service answers
    its payload with status 200 and exactly one layout-parsing entry,
    whose text is [content]. *)
Definition answered_once (page : PageImage) (content : json) : Prop :=
  ∃ original_size resized_size image_data response j result_ res markdown,
    imread page = Some original_size ∧
    resize_longest_side (page, original_size) T = Ok (page, resized_size) ∧
    imencode page resized_size = Some image_data ∧
    service api_url (create_layout_parsing_payload image_data 1)
      = Ok response ∧
    status_code response = 200 ∧
    body response = Some j ∧
    getitem j "result" = Ok result_ ∧
    getitem result_ "layoutParsingResults" = Ok (JList [res]) ∧
    getitem res "markdown" = Ok markdown ∧
    getitem markdown "text" = Ok content ∧
    has_count content = true.

(** The page is read back, resized and encoded, and the service answers
    its payload with a status other than 200. *)
Definition remote_call_fails (page : PageImage) : Prop :=
  ∃ original_size resized_size image_data response,
    imread page = Some original_size ∧
    resize_longest_side (page, original_size) T = Ok (page, resized_size) ∧
    imencode page resized_size = Some image_data ∧
    service api_url (create_layout_parsing_payload image_data 1)
      = Ok response ∧
    status_code response ≠ 200.

(** A run over [pages] goes on past the failed remote call of page
    [k+1]: it returns records, among them those of every other page
    that is processed without a failure of its own. *)
Definition continues_past_failure (pages : list PageImage) (k : nat)
    (out : result json_text) : Prop :=
  ∃ records,
    out = Ok (json_dumps (JList records)) ∧
    ∀ j page entries,
      j ≠ k → pages !! j = Some page →
      page_entries service api_url T j page = Ok entries →
      entries ⊆ records.

End Vocabulary.

(** The records of pages [i+1], [i+2], ... with the given texts. *)
Fixpoint records_from (i : nat) (contents : list json) : list json :=
  match contents with
  | [] => []
  | content :: rest => page_json (Z.of_nat i + 1) content :: records_from (S i) rest
  end.

(** The run returned one record per page, numbered 1, 2, ... in order. *)
Definition one_record_per_page (pages : list PageImage)
    (out : result json_text) : Prop :=
  ∃ records,
    out = Ok (json_dumps (JList records)) ∧
    length records = length pages ∧
    ∀ i, (i < length pages)%nat →
         ∃ content, records !! i = Some (page_json (Z.of_nat i + 1) content).

(** The shifted record [mrs] holds the integer part of [N / U] and the
    position of the remainder relative to one half. *)
Definition located (mrs : shr_record) (N U : Z) : Prop :=
  shr_m mrs = N / U ∧
  loc_of_shr_record mrs
    = if N mod U =? 0 then loc_Exact
      else loc_Inexact (2 * (N mod U) ?= U).

(** The shape of the image a computation returns. *)
Definition shape_of (r : result ndarray) : result shape :=
  image ← r; Ok image.2.

(** Both output sides are the rounded products the specification gives. *)
Definition rounds_both_sides (image : ndarray) (T : Z) : Prop :=
  shape_of (resize_longest_side image T) = spec_normalize image.2 T.

(* ===================================================================== *)
(** * Concrete inputs                                                     *)
(* ===================================================================== *)

Module Examples.

(** An A4 page rendered at twice 72 dpi whose PNG encodes to [data]. *)
Definition a4 (data : string) : PageImage :=
  {| renders := true;
     imread := Some (1684, 1191);
     resizes := fun _ => true;
     imencode := fun _ => Some data |}.

(** A page whose saved image cannot be read back. *)
Definition unreadable : PageImage :=
  {| renders := true; imread := None; resizes := fun _ => true;
     imencode := fun _ => None |}.

Definition page_1 : PageImage := a4 "cGFnZTE=".
Definition page_2 : PageImage := a4 "cGFnZTI=".
Definition page_3 : PageImage := a4 "cGFnZTM=".
Definition rejected_page : PageImage := a4 "YnJva2Vu".

Definition layout_answer (text : string) : HttpResponse :=
  {| status_code := 200;
     body := Some (JDict [("result",
               JDict [("layoutParsingResults",
                 JList [JDict [("markdown",
                   JDict [("text", JStr text)])]])])]) |}.

Definition internal_error : HttpResponse :=
  {| status_code := 500; body := None |}.

(** A service that knows three pages and fails on everything else. *)
Definition service (api_url : string) (payload : json) : result HttpResponse :=
  match getitem payload "file" with
  | Ok (JStr data) =>
      if String.eqb data "cGFnZTE=" then Ok (layout_answer "Page 1")
      else if String.eqb data "cGFnZTI=" then Ok (layout_answer "Page 2")
      else if String.eqb data "cGFnZTM=" then Ok (layout_answer "Page 3")
      else Ok internal_error
  | _ => Ok internal_error
  end.

Definition url : string := "http://192.168.48.236:8080/layout-parsing".
Definition path : string := "/tmp/tmpq3x1.pdf".

(** A file system holding one uploaded PDF. *)
Definition uploaded (pages : list PageImage) : FS :=
  {| temp_pdf_images := None; tmp := {[ path := Document pages ]} |}.

Definition empty_fs : FS := {| temp_pdf_images := None; tmp := ∅ |}.

Definition idle : World := {| processing_semaphore := 1; fs := empty_fs |}.
Definition occupied : World := {| processing_semaphore := 0; fs := empty_fs |}.

Definition runtime : Runtime :=
  {| acquire_runs := true; temp_file_path := path; store := Stored |}.

Definition upload (name : string) (pages : list PageImage) : Request :=
  {| filename := name; file := Document pages; api_url := url;
     longest_side := 1280 |}.

End Examples.

(* ===================================================================== *)
(** * [encode_image_to_base64] in full                                    *)
(* ===================================================================== *)

(** [base64.b64encode] over the standard alphabet of RFC 4648, and the
    decoding that reads it back. *)
Module Base64.

Definition alphabet : string :=
  "ABCDEFGHIJKLMNOPQRSTUVWXYZabcdefghijklmnopqrstuvwxyz0123456789+/".

Definition pad : ascii := "="%char.

(** The character of a six-bit value. *)
Definition digit (n : N) : ascii :=
  match String.get (N.to_nat n) alphabet with
  | Some c => c
  | None => pad
  end.

Fixpoint index_from (i : N) (c : ascii) (s : string) : option N :=
  match s with
  | EmptyString => None
  | String c' s' => if Ascii.eqb c c' then Some i else index_from (i + 1) c s'
  end.

(** The six-bit value of a character of the alphabet. *)
Definition value (c : ascii) : option N := index_from 0 c alphabet.

(** Three bytes make four characters; one or two bytes left over are
    completed with zero bits and [=]. *)
Fixpoint b64encode (bs : list Byte.byte) : string :=
  match bs with
  | [] => EmptyString
  | [b0] =>
      let n := (Byte.to_N b0 * 16)%N in
      String (digit (n / 64)) (String (digit (n mod 64))
        (String pad (String pad EmptyString)))
  | [b0; b1] =>
      let n := ((Byte.to_N b0 * 256 + Byte.to_N b1) * 4)%N in
      String (digit (n / 4096)) (String (digit (n / 64 mod 64))
        (String (digit (n mod 64)) (String pad EmptyString)))
  | b0 :: b1 :: b2 :: rest =>
      let n := (Byte.to_N b0 * 65536 + Byte.to_N b1 * 256 + Byte.to_N b2)%N in
      String (digit (n / 262144)) (String (digit (n / 4096 mod 64))
        (String (digit (n / 64 mod 64)) (String (digit (n mod 64))
          (b64encode rest))))
  end.

Fixpoint b64decode (s : string) : option (list Byte.byte) :=
  match s with
  | EmptyString => Some []
  | String c0 (String c1 (String c2 (String c3 rest))) =>
      v0 ← value c0;
      v1 ← value c1;
      if Ascii.eqb c3 pad then
        match rest with
        | EmptyString =>
            if Ascii.eqb c2 pad then
              b0 ← Byte.of_N ((v0 * 64 + v1) / 16);
              Some [b0]
            else
              v2 ← value c2;
              let n := ((v0 * 64 + v1) * 64 + v2)%N in
              b0 ← Byte.of_N (n / 1024);
              b1 ← Byte.of_N (n / 4 mod 256);
              Some [b0; b1]
        | _ => None
        end
      else
        v2 ← value c2;
        v3 ← value c3;
        let n := (((v0 * 64 + v1) * 64 + v2) * 64 + v3)%N in
        b0 ← Byte.of_N (n / 65536);
        b1 ← Byte.of_N (n / 256 mod 256);
        b2 ← Byte.of_N (n mod 256);
        tail ← b64decode rest;
        Some (b0 :: b1 :: b2 :: tail)
  | _ => None
  end.

End Base64.

(** [encode_image_to_base64] with the three branches of the source: a
    file path, an array, anything else.  [files] is what
    [open(path, "rb").read()] finds.  The pipeline above uses the array
    branch, with the PNG encoding and this function folded into
    [imencode]. *)
Module Encoding.

Inductive image_input : Type :=
  | PathInput (path : string)
  (** a numpy array, with the bytes [cv2.imencode('.png', _)] makes of
      it; [None] when OpenCV reports failure *)
  | ArrayInput (png : option (list Byte.byte))
  | OtherInput.

Definition encode_image_to_base64 (files : gmap string (list Byte.byte))
    (input : image_input) : result string :=
  match input with
  | PathInput path =>
      match files !! path with
      | Some image_bytes => Ok (Base64.b64encode image_bytes)
      | None => Raise FileNotFoundError
      end
  | ArrayInput png =>
      match png with
      | Some image_bytes => Ok (Base64.b64encode image_bytes)
      | None => Raise ValueError
      end
  | OtherInput => Raise TypeError
  end.

(** The bytes an input stands for, when it has any. *)
Definition image_bytes (files : gmap string (list Byte.byte))
    (input : image_input) : option (list Byte.byte) :=
  match input with
  | PathInput path => files !! path
  | ArrayInput png => png
  | OtherInput => None
  end.

End Encoding.

(* ===================================================================== *)
(** * The event loop around the handler                                   *)
(* ===================================================================== *)

(** The server between two events of the event loop: the process-wide
    state, and the handlers suspended at [await file.read()] with the
    request each one serves. *)
Record Server : Type := {
  world : World;
  suspended : list (Runtime * Request)
}.

Inductive Event : Type :=
  | Arrives (rt : Runtime) (req : Request)  (* a request reaches the handler *)
  | Resumes (k : nat) (ev : ReadEvent).     (* suspended handler [k] goes on *)

Section EventLoop.

Variable service : string → json → result HttpResponse.

(** One event, and the answer it produces, if any. *)
Definition serve_event (e : Event) (s : Server)
  : Server * option (result JSONResponse) :=
  match e with
  | Arrives rt req =>
      match process_pdf_begin rt req (world s) with
      | (w, Finished r) =>
          ({| world := w; suspended := suspended s |}, Some r)
      | (w, AwaitFileRead) =>
          ({| world := w; suspended := suspended s ++ [(rt, req)] |}, None)
      end
  | Resumes k ev =>
      match suspended s !! k with
      | None => (s, None)
      | Some (rt, req) =>
          let '(w, r) := process_pdf_resume service rt req ev (world s) in
          ({| world := w; suspended := delete k (suspended s) |}, Some r)
      end
  end.

Fixpoint serve (events : list Event) (s : Server)
  : Server * list (result JSONResponse) :=
  match events with
  | [] => (s, [])
  | e :: rest =>
      let '(s1, answer) := serve_event e s in
      let '(s2, answers) := serve rest s1 in
      (s2, option_list answer ++ answers)
  end.

End EventLoop.

(** A freshly started server: [processing_semaphore = asyncio.Semaphore(1)]
    and no request under way. *)
Definition started (fs0 : FS) : Server :=
  {| world := {| processing_semaphore := 1; fs := fs0 |}; suspended := [] |}.

(** Permits left plus handlers holding one make the one permit the
    semaphore was created with. *)
Definition one_permit (s : Server) : Prop :=
  (processing_semaphore (world s) + length (suspended s) = 1)%nat.

(* ===================================================================== *)
(** * [src/main.py]: the command-line mode                                *)
(* ===================================================================== *)

Module Cli.

(** What [parser.parse_args()] returns. *)
Record Args : Type := {
  pdf_path : string;
  api_url : string;
  output_dir : string;
  longest_side : Z
}.

(** How [parser.parse_args()] ends on the command line of the process:
    the parser ends the process itself ([SystemExit], with status 0 after
    printing the help and 2 after a usage error), or it returns the
    arguments. *)
Inductive Parse : Type :=
  | ParserExits (status : Z)
  | Parsed (args : Args).

(** The parameters of a function, each with its default if it has one. *)
Definition signature : Type := list (string * option json).

(** Binding the keyword arguments of a call [f(k1=v1, ...)]: [TypeError]
    for a keyword that names no parameter and for a parameter left
    without a value. *)
Fixpoint bind_parameters (ps : signature) (keywords : dict) : result dict :=
  match ps with
  | [] => Ok []
  | (name, default_value) :: rest =>
      value ← match dict_get name keywords, default_value with
              | Some v, _ => Ok v
              | None, Some v => Ok v
              | None, None => Raise TypeError
              end;
      bound ← bind_parameters rest keywords;
      Ok ((name, value) :: bound)
  end.

Definition bind_keywords (ps : signature) (keywords : dict) : result dict :=
  if forallb (fun kw => bool_decide (kw.1 ∈ ps.*1)) keywords
  then bind_parameters ps keywords
  else Raise TypeError.

(** [def process_pdf_file(pdf_input, api_url, longest_side=1280)] *)
Definition process_pdf_file_signature : signature :=
  [("pdf_input", None); ("api_url", None); ("longest_side", Some (JInt 1280))].

(** How [run_cli] ends: it returns, or [sys.exit] ends the process, or an
    exception that is not an [Exception] leaves it. *)
Inductive Outcome : Type :=
  | Returned
  | Exited (status : Z)
  | Propagated (e : exn).

Section RunCli.

Variable service : string → json → result HttpResponse.

(** A call of [process_pdf_file] with keyword arguments only. *)
Definition call_process_pdf_file (keywords : dict) (fs : FS)
  : FS * result json_text :=
  match bind_keywords process_pdf_file_signature keywords with
  | Raise e => (fs, Raise e)
  | Ok bound =>
      match dict_get "pdf_input" bound, dict_get "api_url" bound,
            dict_get "longest_side" bound with
      | Some (JStr pdf_input), Some (JStr api_url), Some (JInt longest_side) =>
          process_pdf_file service pdf_input api_url longest_side fs
      | _, _, _ => (fs, Raise TypeError)
      end
  end.

(** The files [Path.exists] can see are those of [tmp]. *)
Definition run_cli (parse : Parse) (fs : FS) : FS * Outcome :=
  (* args = parser.parse_args() *)
  match parse with
  | ParserExits status => (fs, Exited status)
  | Parsed args =>
      (* if not pdf_path.exists(): sys.exit(1) *)
      match tmp fs !! pdf_path args with
      | None => (fs, Exited 1)
      | Some _ =>
          (* try: *)
          let '(fs1, result_) :=
            call_process_pdf_file
              [("pdf_path", JStr (pdf_path args));
               ("api_url", JStr (api_url args));
               ("output_dir", JStr (output_dir args));
               ("longest_side", JInt (longest_side args))] fs in
          let r : result () :=
            result_ ← result_;
            (* result['total_pages'], on the str process_pdf_file
               returns *)
            Raise TypeError in
          match r with
          | Ok _ => (fs1, Returned)
          | Raise e =>
              (* except Exception as e: ...; sys.exit(1) *)
              if is_Exception e then (fs1, Exited 1)
              else (fs1, Propagated e)
          end
      end
  end.

End RunCli.

End Cli.

(* ===================================================================== *)
(** * Vocabulary of the further properties                                *)
(* ===================================================================== *)

(** [res["markdown"]["text"]] *)
Definition text_of (res : json) : result json :=
  markdown ← getitem res "markdown";
  getitem markdown "text".

(** The dict [{"page{i+1}": t0, "page{i+2}": t1, ...}] of the texts. *)
Fixpoint keyed_from (i : nat) (texts : list json) : dict :=
  match texts with
  | [] => []
  | t :: rest => (page_key i, t) :: keyed_from (S i) rest
  end.

(** Every element is a page object whose number lies between [lo] and
    [hi], and the numbers never decrease along the list. *)
Fixpoint ascending_pages (lo hi : Z) (l : list json) : Prop :=
  match l with
  | [] => True
  | e :: l' =>
      ∃ n content,
        e = page_json n content ∧ lo ≤ n ≤ hi ∧ ascending_pages n hi l'
  end.

(** Whatever the computation raises is an [Exception]. *)
Definition raises_Exception {A} (r : result A) : Prop :=
  ∀ e, r = Raise e → is_Exception e = true.

(** Further concrete inputs. *)
Module Scenarios.

(** The service of [Examples] behind a single address, unreachable
    anywhere else. *)
Definition single_address (api_url : string) (payload : json)
  : result HttpResponse :=
  if String.eqb api_url Examples.url then Examples.service api_url payload
  else Raise ConnectionError.

(** A page one pixel high and two thousand wide. *)
Definition thin_page : PageImage :=
  {| renders := true;
     imread := Some (1, 2000);
     resizes := fun _ => true;
     imencode := fun _ => Some "dGhpbg==" |}.

(** An upload named like a PDF whose bytes [fitz.open] rejects. *)
Definition mislabelled : Request :=
  {| filename := "notes.pdf"; file := Unopenable; api_url := Examples.url;
     longest_side := 1280 |}.

(** A directory left behind with two page images in it. *)
Definition stale_fs (pages : list PageImage) : FS :=
  {| temp_pdf_images :=
       Some {[ 1%nat := Examples.page_3; 7%nat := Examples.page_3 ]};
     tmp := {[ Examples.path := Document pages ]} |}.

(** An image of a given shape that OpenCV resizes to any size. *)
Definition sized (sh : shape) : ndarray :=
  ({| renders := true; imread := Some sh; resizes := fun _ => true;
      imencode := fun _ => None |}, sh).

(** The event loop as CPython runs it: [asyncio.wait_for] with a timeout
    of zero cancels the [acquire()] coroutine before it has started. *)
Definition standard_runtime : Runtime :=
  {| acquire_runs := false; temp_file_path := Examples.path;
     store := Stored |}.

(** A disk that fills up while the upload is written: the temporary file
    stays behind, cut short. *)
Definition full_disk_runtime : Runtime :=
  {| acquire_runs := true; temp_file_path := Examples.path;
     store := WriteFailed Unopenable |}.

(** The bytes of the text [page1]. *)
Definition page1_bytes : list Byte.byte :=
  [Byte.x70; Byte.x61; Byte.x67; Byte.x65; Byte.x31].

End Scenarios.

(* ===================================================================== *)
(** * Properties: image normalisation on examples                         *)
(* ===================================================================== *)

Example resize_a4 :
  shape_of (resize_longest_side (Scenarios.sized (1684, 1191)) 1280)
    = Ok (1280, 905).
Proof. vm_compute. reflexivity. Qed.

Example resize_landscape :
  shape_of (resize_longest_side (Scenarios.sized (2, 3)) 4) = Ok (2, 4).
Proof. vm_compute. reflexivity. Qed.

Example spec_normalize_landscape : spec_normalize (2, 3) 4 = Ok (3, 4).
Proof. vm_compute. reflexivity. Qed.

(** On a square input the two sides need not come out equal: the height
    is set to T while the width is recomputed through the scale. *)
Example resize_square_49 :
  shape_of (resize_longest_side (Scenarios.sized (49, 49)) 64) = Ok (64, 63).
Proof. vm_compute. reflexivity. Qed.

Example resize_thin :
  resize_longest_side (Scenarios.sized (1, 2000)) 1280 = Raise Cv2Error.
Proof. vm_compute. reflexivity. Qed.

(* ===================================================================== *)
(** * Properties: the double-precision arithmetic of the normalisation    *)
(* ===================================================================== *)

(** The number of binary digits, through the library's [Pos.size] and
    [Z.log2]. *)
Lemma digits2_pos_size p : digits2_pos p = Pos.size p.
Proof. induction p; simpl; congruence. Qed.

Lemma Zdigits2_log2 m : 0 < m → Zdigits2 m = Z.log2 m + 1.
Proof.
  destruct m as [|p|p]; try lia. intros _. simpl. rewrite digits2_pos_size.
  destruct p; simpl; lia.
Qed.

Lemma Zdigits2_bounds m :
  0 < m → (0 < Zdigits2 m) ∧ (2 ^ (Zdigits2 m - 1) ≤ m < 2 ^ Zdigits2 m).
Proof.
  intros Hm. rewrite (Zdigits2_log2 m Hm).
  pose proof (Z.log2_nonneg m). pose proof (Z.log2_spec m Hm) as Hs.
  replace (Z.log2 m + 1 - 1) with (Z.log2 m) by lia.
  replace (Z.succ (Z.log2 m)) with (Z.log2 m + 1) in Hs by lia. lia.
Qed.

Lemma Zdigits2_unique m d :
  0 < d → 2 ^ (d - 1) ≤ m < 2 ^ d → Zdigits2 m = d.
Proof.
  intros Hd Hm. assert (0 < m) by (pose proof (Z.pow_pos_nonneg 2 (d - 1)); lia).
  rewrite Zdigits2_log2 by assumption.
  rewrite (Z.log2_unique m (d - 1)); [lia | lia |].
  replace (Z.succ (d - 1)) with d by lia. exact Hm.
Qed.

(** [iter_pos] is iteration a number of times. *)
Lemma iter_pos_nat {A} (f : A → A) p :
  ∀ x, SpecFloat.iter_pos f p x = Nat.iter (Pos.to_nat p) f x.
Proof.
  induction p as [p IH|p IH|]; intros x; cbn [SpecFloat.iter_pos].
  - rewrite !IH, Pos2Nat.inj_xI.
    replace (S (2 * Pos.to_nat p)) with (Pos.to_nat p + S (Pos.to_nat p))%nat by lia.
    rewrite Nat.iter_add, Nat.iter_succ_r. reflexivity.
  - rewrite !IH, Pos2Nat.inj_xO.
    replace (2 * Pos.to_nat p)%nat with (Pos.to_nat p + Pos.to_nat p)%nat by lia.
    rewrite Nat.iter_add. reflexivity.
  - reflexivity.
Qed.

Lemma div_mod_double N U :
  0 < U →
  (N / (2 * U) = N / U / 2) ∧ (N mod (2 * U) = N / U mod 2 * U + N mod U).
Proof.
  intros HU. split.
  - rewrite Z.div_div by lia. f_equal. lia.
  - rewrite (Z.mul_comm 2 U), Z.rem_mul_r by lia. lia.
Qed.

Lemma shr_1_m mrs : 0 ≤ shr_m mrs → shr_m (shr_1 mrs) = shr_m mrs / 2.
Proof.
  destruct mrs as [m r s]; simpl. intros Hm.
  destruct m as [|[p|p|]|p]; try lia; simpl shr_m.
  - reflexivity.
  - rewrite Pos2Z.inj_xI. apply (Z.div_unique _ 2 _ 1); lia.
  - rewrite Pos2Z.inj_xO. apply (Z.div_unique _ 2 _ 0); lia.
  - reflexivity.
Qed.

Lemma shr_1_rs mrs :
  0 ≤ shr_m mrs →
  shr_r (shr_1 mrs) = Z.odd (shr_m mrs) ∧
  shr_s (shr_1 mrs) = shr_r mrs || shr_s mrs.
Proof.
  destruct mrs as [m r s]; simpl. intros Hm.
  destruct m as [|[p|p|]|p]; try lia; simpl; auto.
Qed.

(** One shift to the right halves the unit and keeps the record in step
    with the exact value. *)
Lemma located_shr_1 mrs N U :
  0 ≤ N → 0 < U → located mrs N U → located (shr_1 mrs) N (2 * U).
Proof.
  intros HN HU [Hm Hloc].
  assert (Hm0 : 0 ≤ shr_m mrs) by (rewrite Hm; apply Z.div_pos; lia).
  destruct (div_mod_double N U HU) as [Hd Hr].
  pose proof (shr_1_m mrs Hm0) as Hm1.
  destruct (shr_1_rs mrs Hm0) as [Hr1 Hs1].
  split; [rewrite Hm1, Hm, Hd; reflexivity|].
  pose proof (Z.mod_pos_bound N U HU) as HR.
  rewrite Hr. rewrite <- Hm.
  destruct (shr_1 mrs) as [m1 r1 s1]. simpl in *. subst r1 s1.
  rewrite Zmod_odd.
  destruct mrs as [m r s]; simpl in *.
  destruct (Z.odd m);
    destruct r, s; simpl in *;
    destruct (Z.eqb_spec (N mod U) 0); try discriminate;
    repeat match goal with
    | |- context [?x =? 0] => destruct (Z.eqb_spec x 0)
    | |- context [?x ?= ?y] => destruct (Z.compare_spec x y)
    | H : context [?x ?= ?y] |- _ => destruct (Z.compare_spec x y)
    end; try discriminate; try reflexivity; try lia.
Qed.

Lemma located_iter mrs N U k :
  0 ≤ N → 0 < U → located mrs N U →
  located (Nat.iter k shr_1 mrs) N (2 ^ Z.of_nat k * U).
Proof.
  intros HN HU H. induction k as [|k IH].
  - simpl. rewrite Z.mul_1_l. exact H.
  - rewrite Nat2Z.inj_succ, Z.pow_succ_r by lia. simpl.
    rewrite <- Z.mul_assoc. apply located_shr_1; [lia| |exact IH].
    pose proof (Z.pow_pos_nonneg 2 (Z.of_nat k)). lia.
Qed.

Lemma shr_nat mrs e n :
  0 ≤ n → shr mrs e n = (Nat.iter (Z.to_nat n) shr_1 mrs, e + n).
Proof.
  intros Hn. destruct n as [|p|p]; try lia; unfold shr.
  - rewrite Z.add_0_r. reflexivity.
  - rewrite iter_pos_nat. reflexivity.
Qed.

(** The location a division reports places its remainder. *)
Lemma located_init N b :
  0 ≤ N → 0 < b →
  located (shr_record_of_loc (N / b) (new_location b (N mod b))) N b.
Proof.
  intros HN Hb. pose proof (Z.mod_pos_bound N b Hb) as HR.
  unfold located, new_location, new_location_even, new_location_odd.
  destruct (Z.even b) eqn:Heven;
    destruct (Z.eqb_spec (N mod b) 0) as [E|E]; simpl; auto.
  - destruct (Z.compare_spec (2 * (N mod b)) b); simpl; auto.
  - assert (Hodd : Z.odd b = true) by (rewrite <- Z.negb_even, Heven; reflexivity).
    apply Z.odd_spec in Hodd as (k & Hk).
    destruct (Z.compare_spec (2 * (N mod b) + 1) b);
      destruct (Z.compare_spec (2 * (N mod b)) b); simpl; auto; lia.
Qed.

(** Rounding to nearest, ties to even, lands within half a unit. *)
Lemma round_located mrs N U :
  0 ≤ N → 0 < U → located mrs N U →
  (2 * Z.abs (round_nearest_even (shr_m mrs) (loc_of_shr_record mrs) * U - N) ≤ U) ∧
  (N / U ≤ round_nearest_even (shr_m mrs) (loc_of_shr_record mrs) ≤ N / U + 1) ∧
  (N mod U = 0 → round_nearest_even (shr_m mrs) (loc_of_shr_record mrs) = N / U).
Proof.
  intros HN HU [Hm Hloc]. rewrite Hloc, Hm.
  pose proof (Z.mod_pos_bound N U HU) as HR.
  pose proof (Z.div_mod N U ltac:(lia)) as HD.
  unfold round_nearest_even.
  destruct (Z.eqb_spec (N mod U) 0) as [E|E].
  - repeat split; try lia.
  - destruct (Z.compare_spec (2 * (N mod U)) U);
      [destruct (Z.even (N / U))| |]; repeat split; try lia.
Qed.

Lemma fexp_normal x : -1074 ≤ x - 53 → fexp 53 1024 x = x - 53.
Proof. intros H. unfold fexp, emin. lia. Qed.

(** The rounding step of every operation, for a positive value [N / b]
    units of [2 ^ e] whose integer part has [d >= 53] digits, inside the
    normal range: the result is a 53-bit mantissa within half a unit in
    the last place of the exact value, and it is the exact value when
    that is representable. *)
Lemma binary_round_aux_div N b e d :
  0 < b → 53 ≤ d → 2 ^ (d - 1) ≤ N / b < 2 ^ d →
  -1074 ≤ e + d - 53 → e + d - 53 < 971 →
  ∃ m' e',
    binary_round_aux 53 1024 false (N / b) e (new_location b (N mod b))
      = S754_finite false m' e' ∧
    (2 ^ 52 ≤ Z.pos m' < 2 ^ 53) ∧
    (e + d - 53 ≤ e' ≤ e + d - 52) ∧
    (2 * Z.abs (Z.pos m' * 2 ^ (e' - e) * b - N) ≤ 2 ^ (e' - e) * b) ∧
    (N mod (2 ^ (d - 53) * b) = 0 →
     Z.pos m' = N / (2 ^ (d - 53) * b) ∧ e' = e + d - 53).
Proof.
  intros Hb Hd Hq He1 He2.
  assert (Hpd : 0 < 2 ^ (d - 1)) by (apply Z.pow_pos_nonneg; lia).
  assert (HN : 0 ≤ N).
  { destruct (Z.le_gt_cases 0 N) as [|Hneg]; [assumption|].
    pose proof (Z.div_lt_upper_bound N b 0 Hb ltac:(lia)). lia. }
  set (n := d - 53).
  assert (Hpn : 0 < 2 ^ n) by (apply Z.pow_pos_nonneg; lia).
  assert (HU : 0 < 2 ^ n * b) by lia.
  assert (Hdiv : N / (2 ^ n * b) = N / b / 2 ^ n).
  { rewrite Z.div_div by lia. f_equal. lia. }
  assert (Hq52 : 2 ^ 52 ≤ N / (2 ^ n * b) < 2 ^ 53).
  { rewrite Hdiv. split.
    - apply Z.div_le_lower_bound; [lia|].
      rewrite <- Z.pow_add_r by lia. replace (n + 52) with (d - 1) by lia. lia.
    - apply Z.div_lt_upper_bound; [lia|].
      rewrite <- Z.pow_add_r by lia. replace (n + 53) with d by lia. lia. }
  unfold binary_round_aux, shr_fexp.
  rewrite (Zdigits2_unique (N / b) d) by lia.
  rewrite (fexp_normal (d + e)) by lia.
  replace (d + e - 53 - e) with n by lia.
  rewrite shr_nat by lia.
  pose proof (located_iter _ N b (Z.to_nat n) HN Hb (located_init N b HN Hb))
    as Hloc.
  rewrite Z2Nat.id in Hloc by lia.
  destruct (round_located _ N (2 ^ n * b) HN HU Hloc) as (Habs & Hrange & Hexact).
  set (m1 := round_nearest_even
               (shr_m (Nat.iter (Z.to_nat n) shr_1
                  (shr_record_of_loc (N / b) (new_location b (N mod b)))))
               (loc_of_shr_record (Nat.iter (Z.to_nat n) shr_1
                  (shr_record_of_loc (N / b) (new_location b (N mod b)))))) in *.
  cbv zeta beta iota.
  destruct (Z.eq_dec m1 (2 ^ 53)) as [Hover|Hnover].
  - (* the mantissa rounded up to 2^53 *)
    rewrite Hover.
    replace (Zdigits2 (2 ^ 53)) with 54 by (vm_compute; reflexivity).
    rewrite (fexp_normal (54 + (e + n))) by lia.
    replace (54 + (e + n) - 53 - (e + n)) with 1 by lia.
    replace (shr (shr_record_of_loc (2 ^ 53) loc_Exact) (e + n) 1)
      with ({| shr_m := Z.pos (2 ^ 52); shr_r := false; shr_s := false |},
            e + n + 1) by (unfold shr; f_equal).
    cbv zeta beta iota. cbn [shr_m].
    destruct (Z.leb_spec (e + n + 1) (1024 - 53)) as [_|Hbad]; [|lia].
    exists (2 ^ 52)%positive, (e + n + 1).
    split; [reflexivity|]. split; [vm_compute; split; [discriminate|reflexivity]|].
    split; [lia|].
    replace (e + n + 1 - e) with (n + 1) by lia.
    rewrite Z.pow_add_r, Z.pow_1_r by lia.
    rewrite Hover in Habs.
    change (Z.pos (2 ^ 52)) with (2 ^ 52).
    change (2 ^ 53) with (2 ^ 52 * 2) in Habs.
    split; [lia|].
    intros Hex. rewrite Hover in Hexact. specialize (Hexact Hex). lia.
  - assert (Hm1 : 2 ^ 52 ≤ m1 < 2 ^ 53) by lia.
    rewrite (Zdigits2_unique m1 53) by lia.
    rewrite (fexp_normal (53 + (e + n))) by lia.
    replace (53 + (e + n) - 53 - (e + n)) with 0 by lia.
    unfold shr.
    destruct m1 as [|p|p] eqn:Hp; try lia.
    cbv zeta beta iota. cbn [shr_m shr_record_of_loc].
    destruct (Z.leb_spec (e + n) (1024 - 53)) as [_|Hbad]; [|lia].
    exists p, (e + n).
    split; [reflexivity|]. split; [lia|]. split; [lia|].
    replace (e + n - e) with n by lia.
    split; [rewrite Z.mul_assoc in Habs; lia|].
    intros Hex. specialize (Hexact Hex). lia.
Qed.

Lemma Pos_iter_xO p d : Z.pos (Pos.iter xO p d) = Z.pos p * 2 ^ Z.pos d.
Proof.
  induction d as [|d IH] using Pos.peano_ind.
  - simpl. lia.
  - rewrite Pos.iter_succ, Pos2Z.inj_xO, IH, Pos2Z.inj_succ, Z.pow_succ_r by lia.
    lia.
Qed.

Lemma loc_Exact_new_location N : loc_Exact = new_location 1 (N mod 1).
Proof. rewrite Z.mod_1_r. reflexivity. Qed.

(** Rounding a product or an integer: the exact value is [N] units. *)
Lemma binary_round_aux_exact N e d :
  53 ≤ d → 2 ^ (d - 1) ≤ N < 2 ^ d →
  -1074 ≤ e + d - 53 → e + d - 53 < 971 →
  ∃ m' e',
    binary_round_aux 53 1024 false N e loc_Exact = S754_finite false m' e' ∧
    (2 ^ 52 ≤ Z.pos m' < 2 ^ 53) ∧
    (e + d - 53 ≤ e' ≤ e + d - 52) ∧
    (2 * Z.abs (Z.pos m' * 2 ^ (e' - e) - N) ≤ 2 ^ (e' - e)) ∧
    (d = 53 → Z.pos m' = N ∧ e' = e).
Proof.
  intros Hd HN He1 He2.
  destruct (binary_round_aux_div N 1 e d) as (m' & e' & H1 & H2 & H3 & H4 & H5);
    try lia.
  { rewrite Z.div_1_r. exact HN. }
  rewrite Z.div_1_r, <- loc_Exact_new_location in H1.
  exists m', e'. split; [exact H1|]. split; [exact H2|]. split; [exact H3|].
  split; [lia|].
  intros ->. replace (53 - 53) with 0 in H5 by lia.
  change (2 ^ 0 * 1) with 1 in H5. rewrite Z.mod_1_r, Z.div_1_r in H5.
  destruct (H5 eq_refl). lia.
Qed.

(** An int below [2 ^ 53] converts to a float without error. *)
Lemma float_of_int_exact c :
  0 < c < 2 ^ 53 →
  ∃ mc ec,
    PyNum.float_of_int c = Ok (S754_finite false mc ec) ∧
    (2 ^ 52 ≤ Z.pos mc < 2 ^ 53) ∧
    (-52 ≤ ec ≤ 0) ∧
    Z.pos mc = c * 2 ^ (- ec).
Proof.
  intros Hc. destruct c as [|p|p]; try lia.
  destruct (Zdigits2_bounds (Z.pos p) ltac:(lia)) as (Hd0 & Hd).
  assert (Hd53 : Zdigits2 (Z.pos p) ≤ 53).
  { rewrite Zdigits2_log2 by lia.
    pose proof (proj1 (Z.log2_lt_pow2 (Z.pos p) 53 ltac:(lia)) ltac:(lia)). lia. }
  set (dc := Zdigits2 (Z.pos p)) in *.
  unfold PyNum.float_of_int, PyNum.prec, PyNum.emax, binary_normalize,
    binary_round.
  change (Z.pos (digits2_pos p)) with dc.
  rewrite (fexp_normal (dc + 0)) by lia.
  assert (Hshl : ∃ mz, shl_align p 0 (dc + 0 - 53) = (mz, dc - 53) ∧
                       Z.pos mz = Z.pos p * 2 ^ (53 - dc)).
  { unfold shl_align. destruct (dc + 0 - 53 - 0) as [|q|q] eqn:Hq; try lia.
    - exists p. replace (dc - 53) with 0 by lia.
      replace (53 - dc) with 0 by lia. split; [reflexivity | lia].
    - exists (Pos.iter xO p q). split; [f_equal; lia|].
      rewrite Pos_iter_xO. f_equal. f_equal. lia. }
  destruct Hshl as (mz & -> & Hmz).
  assert (Hmz52 : 2 ^ 52 ≤ Z.pos mz < 2 ^ 53).
  { rewrite Hmz.
    assert (Hp : 0 < 2 ^ (53 - dc)) by (apply Z.pow_pos_nonneg; lia).
    replace (2 ^ 52) with (2 ^ (dc - 1) * 2 ^ (53 - dc))
      by (rewrite <- Z.pow_add_r by lia; f_equal; lia).
    replace (2 ^ 53) with (2 ^ dc * 2 ^ (53 - dc))
      by (rewrite <- Z.pow_add_r by lia; f_equal; lia).
    split; [apply Z.mul_le_mono_nonneg_r; lia | apply Z.mul_lt_mono_pos_r; lia]. }
  destruct (binary_round_aux_exact (Z.pos mz) (dc - 53) 53)
    as (m' & e' & H1 & H2 & H3 & H4 & H5); try lia.
  destruct (H5 eq_refl) as (Hm' & He'). subst e'.
  rewrite H1. exists m', (dc - 53).
  split; [reflexivity|]. split; [lia|]. split; [lia|].
  rewrite Hm', Hmz. f_equal. f_equal. lia.
Qed.

Lemma Zdigits2_le m k : 0 < m < 2 ^ k → 0 ≤ k → Zdigits2 m ≤ k.
Proof.
  intros Hm Hk. rewrite Zdigits2_log2 by lia.
  pose proof (proj1 (Z.log2_lt_pow2 m k ltac:(lia)) ltac:(lia)). lia.
Qed.

Lemma div_eucl_div_mod a b : Z.div_eucl a b = (a / b, a mod b).
Proof. unfold Z.div, Z.modulo. destruct (Z.div_eucl a b); reflexivity. Qed.

(** [a / b]: the quotient is within half a unit in the last place. *)
Lemma int_truediv_bounds a b :
  0 < a < 2 ^ 53 → 0 < b < 2 ^ 53 →
  ∃ mq eq s k,
    PyNum.int_truediv a b = Ok (S754_finite false mq eq) ∧
    (2 ^ 52 ≤ Z.pos mq < 2 ^ 53) ∧
    0 < s ∧ 0 ≤ k ∧ eq = k - s ∧ (-105 ≤ eq ≤ 1) ∧
    2 * Z.abs (Z.pos mq * 2 ^ k * b - a * 2 ^ s) ≤ 2 ^ k * b.
Proof.
  intros Ha Hb.
  destruct (Zdigits2_bounds a ltac:(lia)) as (Hda0 & Hda).
  destruct (Zdigits2_bounds b ltac:(lia)) as (Hdb0 & Hdb).
  pose proof (Zdigits2_le a 53 Ha ltac:(lia)) as Hda53.
  pose proof (Zdigits2_le b 53 Hb ltac:(lia)) as Hdb53.
  set (d1 := Zdigits2 a) in *. set (d2 := Zdigits2 b) in *.
  set (s := 53 + d2 - d1).
  assert (Hs : 0 < s) by lia.
  assert (Hps : 0 < 2 ^ s) by (apply Z.pow_pos_nonneg; lia).
  assert (Hpb : 0 < 2 ^ (d2 - 1)) by (apply Z.pow_pos_nonneg; lia).
  assert (HNlo : 2 ^ 52 * 2 ^ d2 ≤ a * 2 ^ s).
  { replace (2 ^ 52 * 2 ^ d2) with (2 ^ (d1 - 1) * 2 ^ s)
      by (rewrite <- !Z.pow_add_r by lia; f_equal; lia).
    apply Z.mul_le_mono_nonneg_r; lia. }
  assert (HNhi : a * 2 ^ s < 2 ^ 54 * 2 ^ (d2 - 1)).
  { replace (2 ^ 54 * 2 ^ (d2 - 1)) with (2 ^ d1 * 2 ^ s)
      by (rewrite <- !Z.pow_add_r by lia; f_equal; lia).
    apply Z.mul_lt_mono_pos_r; lia. }
  assert (Hq : 2 ^ 52 ≤ a * 2 ^ s / b < 2 ^ 54).
  { split.
    - apply Z.div_le_lower_bound; [lia|]. nia.
    - apply Z.div_lt_upper_bound; [lia|]. nia. }
  destruct (Zdigits2_bounds (a * 2 ^ s / b) ltac:(lia)) as (Hdq0 & Hdq).
  pose proof (Zdigits2_le (a * 2 ^ s / b) 54 ltac:(lia) ltac:(lia)) as Hdq54.
  assert (Hdq53 : 53 ≤ Zdigits2 (a * 2 ^ s / b)).
  { destruct (Z.le_gt_cases 53 (Zdigits2 (a * 2 ^ s / b))) as [|Hlt]; [assumption|].
    assert (2 ^ Zdigits2 (a * 2 ^ s / b) ≤ 2 ^ 52)
      by (apply Z.pow_le_mono_r; lia).
    lia. }
  set (d := Zdigits2 (a * 2 ^ s / b)) in *.
  unfold PyNum.int_truediv, PyNum.prec, PyNum.emax.
  destruct (Z.eqb_spec b 0) as [|_]; [lia|].
  destruct (Z.eqb_spec a 0) as [|_]; [lia|].
  rewrite (Z.abs_eq a), (Z.abs_eq b) by lia.
  replace (a <? 0) with false by (symmetry; apply Z.ltb_ge; lia).
  replace (b <? 0) with false by (symmetry; apply Z.ltb_ge; lia).
  unfold SFdiv_core_binary. fold d1 d2.
  rewrite (fexp_normal (d1 + 0 - (d2 + 0))) by lia.
  replace (Z.min (d1 + 0 - (d2 + 0) - 53) (0 - 0)) with (- s) by lia.
  replace (0 - 0 - - s) with s by lia.
  assert (Hm' : match s with
                 | 0 => a
                 | Z.pos _ => Z.shiftl a s
                 | Z.neg _ => 0
                 end = a * 2 ^ s).
  { destruct s; try lia. apply Z.shiftl_mul_pow2. lia. }
  rewrite Hm'. rewrite (div_eucl_div_mod (a * 2 ^ s) b).
  destruct (binary_round_aux_div (a * 2 ^ s) b (- s) d)
    as (mq & eq & H1 & H2 & H3 & H4 & _); try lia.
  change (xorb false false) with false. rewrite H1.
  exists mq, eq, s, (eq - - s).
  split; [reflexivity|]. split; [exact H2|]. split; [exact Hs|].
  split; [lia|]. split; [lia|]. split; [lia|]. exact H4.
Qed.

(** [c * x] for an int [c] and a float [x]: the product is within half a
    unit in the last place. *)
Lemma int_mul_float_bounds c mq eq :
  0 < c < 2 ^ 53 → 2 ^ 52 ≤ Z.pos mq < 2 ^ 53 → -105 ≤ eq ≤ 1 →
  ∃ mc ec mp ep k,
    Z.pos mc = c * 2 ^ (- ec) ∧ (-52 ≤ ec ≤ 0) ∧
    PyNum.int_mul_float c (S754_finite false mq eq)
      = Ok (S754_finite false mp ep) ∧
    (2 ^ 52 ≤ Z.pos mp < 2 ^ 53) ∧
    0 ≤ k ∧ ep = ec + eq + k ∧
    2 * Z.abs (Z.pos mp * 2 ^ k - Z.pos mc * Z.pos mq) ≤ 2 ^ k.
Proof.
  intros Hc Hmq Heq.
  destruct (float_of_int_exact c Hc) as (mc & ec & Hf & Hmc & Hec & Hmc').
  unfold PyNum.int_mul_float. rewrite Hf. cbn [mbind result_bind].
  unfold SFmul, PyNum.prec, PyNum.emax. change (xorb false false) with false.
  rewrite Pos2Z.inj_mul.
  assert (HN : 2 ^ 104 ≤ Z.pos mc * Z.pos mq < 2 ^ 106).
  { change (2 ^ 104) with (2 ^ 52 * 2 ^ 52).
    change (2 ^ 106) with (2 ^ 53 * 2 ^ 53). nia. }
  destruct (Zdigits2_bounds (Z.pos mc * Z.pos mq) ltac:(lia)) as (Hd0 & Hd).
  pose proof (Zdigits2_le (Z.pos mc * Z.pos mq) 106 ltac:(lia) ltac:(lia)) as Hd106.
  assert (Hd105 : 105 ≤ Zdigits2 (Z.pos mc * Z.pos mq)).
  { destruct (Z.le_gt_cases 105 (Zdigits2 (Z.pos mc * Z.pos mq)))
      as [|Hlt]; [assumption|].
    assert (2 ^ Zdigits2 (Z.pos mc * Z.pos mq) ≤ 2 ^ 104)
      by (apply Z.pow_le_mono_r; lia).
    lia. }
  destruct (binary_round_aux_exact (Z.pos mc * Z.pos mq) (ec + eq)
              (Zdigits2 (Z.pos mc * Z.pos mq)))
    as (mp & ep & H1 & H2 & H3 & H4 & _); try lia.
  rewrite H1. exists mc, ec, mp, ep, (ep - (ec + eq)).
  split; [exact Hmc'|]. split; [exact Hec|]. split; [reflexivity|].
  split; [exact H2|]. split; [lia|]. split; [lia|]. exact H4.
Qed.

(** The two rounding errors together, with all powers of two abstracted:
    the computed product is less than [1 / b] away from [a * c / b]. *)
Lemma scaled_error a b c mq mc mp A1 A2 S Ec :
  0 < a → 0 < b → 0 < c → a * c < 2 ^ 50 →
  0 < A1 → 0 < A2 → 0 < S → 0 < Ec →
  mc = c * Ec → 2 ^ 52 ≤ mq → 2 ^ 52 ≤ mp →
  2 * Z.abs (mq * A1 * b - a * S) ≤ A1 * b →
  2 * Z.abs (mp * A2 - mc * mq) ≤ A2 →
  Z.abs (mp * A2 * (A1 * b) - a * c * (S * Ec)) < S * Ec.
Proof.
  intros Ha Hb Hc Hac HA1 HA2 HS HEc Hmc Hmq Hmp HX HP.
  set (W := S * Ec). assert (HW : 0 < W) by (unfold W; nia).
  set (X := mq * A1 * b).
  set (V := mc * X).
  set (G := mp * A2 * (A1 * b)).
  set (Z0 := a * c * W).
  assert (HAb : 0 < A1 * b) by nia.
  assert (H0 : 2 ^ 52 * (A1 * b) ≤ X) by (unfold X; nia).
  assert (H1 : 2 ^ 53 * Z.abs (X - a * S) ≤ X).
  { fold X in HX. change (2 ^ 53) with (2 ^ 52 * 2). lia. }
  assert (Hmcpos : 0 < mc) by nia.
  assert (HVZ : V - Z0 = mc * (X - a * S)).
  { unfold V, Z0, W. rewrite Hmc. ring. }
  assert (H2 : 2 ^ 53 * Z.abs (V - Z0) ≤ V).
  { rewrite HVZ, Z.abs_mul, (Z.abs_eq mc) by lia. unfold V.
    replace (2 ^ 53 * (mc * Z.abs (X - a * S)))
      with (mc * (2 ^ 53 * Z.abs (X - a * S))) by ring.
    apply Z.mul_le_mono_nonneg_l; lia. }
  assert (H3 : 2 ^ 53 * Z.abs (mp * A2 - mc * mq) ≤ mp * A2).
  { assert (2 ^ 52 * A2 ≤ mp * A2) by nia.
    change (2 ^ 53) with (2 ^ 52 * 2). lia. }
  assert (HGV : G - V = (mp * A2 - mc * mq) * (A1 * b)).
  { unfold G, V, X. ring. }
  assert (H4 : 2 ^ 53 * Z.abs (G - V) ≤ G).
  { rewrite HGV, Z.abs_mul, (Z.abs_eq (A1 * b)) by lia. unfold G.
    replace (2 ^ 53 * (Z.abs (mp * A2 - mc * mq) * (A1 * b)))
      with (2 ^ 53 * Z.abs (mp * A2 - mc * mq) * (A1 * b)) by ring.
    apply Z.mul_le_mono_nonneg_r; lia. }
  assert (H5 : Z0 ≤ (2 ^ 50 - 1) * W).
  { unfold Z0. apply Z.mul_le_mono_nonneg_r; lia. }
  assert (H6 : Z.abs (G - Z0) < W) by lia.
  exact H6.
Qed.

(** Truncating a value that close to [a * c / b] gives its floor, or one
    less when the quotient is an integer. *)
Lemma scaled_floor a b c mp A1 A2 S Ec Pw r :
  0 < b → 0 < A1 → 0 < A2 → 0 < S → 0 < Ec → 0 < Pw →
  Z.abs (mp * A2 * (A1 * b) - a * c * (S * Ec)) < S * Ec →
  Pw * (A1 * A2) = S * Ec →
  r * Pw ≤ mp < (r + 1) * Pw →
  r * b ≤ a * c ≤ (r + 1) * b.
Proof.
  intros Hb HA1 HA2 HS HEc HPw H6 Hexp Hr.
  set (W := S * Ec) in *. assert (HW : 0 < W) by (unfold W; nia).
  set (G := mp * A2 * (A1 * b)) in *.
  assert (HK : Pw * (A1 * A2 * b) = W * b).
  { rewrite <- Hexp. ring. }
  assert (HGr : r * (W * b) ≤ G < (r + 1) * (W * b)).
  { rewrite <- HK. unfold G.
    assert (0 < A1 * A2 * b) by nia.
    replace (r * (Pw * (A1 * A2 * b))) with (r * Pw * (A1 * A2 * b)) by ring.
    replace ((r + 1) * (Pw * (A1 * A2 * b))) with ((r + 1) * Pw * (A1 * A2 * b)) by ring.
    replace (mp * A2 * (A1 * b)) with (mp * (A1 * A2 * b)) by ring.
    split; [apply Z.mul_le_mono_nonneg_r; lia | apply Z.mul_lt_mono_pos_r; lia]. }
  split.
  - assert (r * b * W < (a * c + 1) * W) by lia.
    assert (r * b < a * c + 1) by (apply (Z.mul_lt_mono_pos_r W); lia).
    lia.
  - assert ((a * c - 1) * W < (r + 1) * b * W) by lia.
    assert (a * c - 1 < (r + 1) * b) by (apply (Z.mul_lt_mono_pos_r W); lia).
    lia.
Qed.

(** The computed product has a negative exponent. *)
Lemma scaled_below_one a b c mp A1 A2 W P :
  0 < b → 0 < W → 0 < P → 2 ^ 52 ≤ mp → 0 ≤ a * c < 2 ^ 50 →
  A1 * A2 = W * P →
  Z.abs (mp * A2 * (A1 * b) - a * c * W) < W →
  False.
Proof.
  intros Hb HW HP Hmp Hac Hexp Herr.
  replace (mp * A2 * (A1 * b)) with (mp * (W * (P * b))) in Herr
    by (rewrite <- Z.mul_assoc, (Z.mul_assoc A2 A1 b), (Z.mul_comm A2 A1), Hexp;
        ring).
  assert (H1 : W * 1 ≤ W * (P * b)) by (apply Z.mul_le_mono_nonneg_l; nia).
  assert (H2 : 2 ^ 52 * W ≤ mp * (W * (P * b))).
  { apply Z.mul_le_mono_nonneg; lia. }
  assert (H3 : a * c * W ≤ (2 ^ 50 - 1) * W)
    by (apply Z.mul_le_mono_nonneg_r; lia).
  lia.
Qed.
(** [int(c * (a / b))] for positive ints below [2 ^ 25]: the exact
    quotient [a * c / b] truncated, or one less when it is an integer. *)
Lemma scaled_side a b c :
  0 < a < 2 ^ 25 → 0 < b < 2 ^ 25 → 0 < c < 2 ^ 25 →
  ∃ scale scaled r,
    PyNum.int_truediv a b = Ok scale ∧
    PyNum.int_mul_float c scale = Ok scaled ∧
    PyNum.int_of_float scaled = Ok r ∧
    r * b ≤ a * c ≤ (r + 1) * b.
Proof.
  intros Ha Hb Hc.
  destruct (int_truediv_bounds a b) as (mq & eq & s & k1 & Hdiv & Hmq & Hs & Hk1 & Heq & Heqr & HX);
    try lia.
  destruct (int_mul_float_bounds c mq eq) as (mc & ec & mp & ep & k2 & Hmc & Hec & Hmul & Hmp & Hk2 & Hep & HP);
    try lia.
  exists (S754_finite false mq eq), (S754_finite false mp ep).
  assert (HA1 : 0 < 2 ^ k1) by (apply Z.pow_pos_nonneg; lia).
  assert (HA2 : 0 < 2 ^ k2) by (apply Z.pow_pos_nonneg; lia).
  assert (HS : 0 < 2 ^ s) by (apply Z.pow_pos_nonneg; lia).
  assert (HEc : 0 < 2 ^ (- ec)) by (apply Z.pow_pos_nonneg; lia).
  assert (Hac : a * c < 2 ^ 50).
  { change (2 ^ 50) with (2 ^ 25 * 2 ^ 25). nia. }
  pose proof (scaled_error a b c (Z.pos mq) (Z.pos mc) (Z.pos mp)
                (2 ^ k1) (2 ^ k2) (2 ^ s) (2 ^ (- ec))
                ltac:(lia) ltac:(lia) ltac:(lia) Hac HA1 HA2 HS HEc Hmc
                ltac:(lia) ltac:(lia) HX HP) as Herr.
  assert (Hneg : ep < 0).
  { destruct (Z.lt_ge_cases ep 0) as [|Hge]; [assumption|exfalso].
    assert (HPe : 0 < 2 ^ ep) by (apply Z.pow_pos_nonneg; lia).
    apply (scaled_below_one a b c (Z.pos mp) (2 ^ k1) (2 ^ k2)
             (2 ^ s * 2 ^ (- ec)) (2 ^ ep)); try assumption.
    - lia.
    - apply Z.mul_pos_pos; assumption.
    - lia.
    - split; [apply Z.mul_nonneg_nonneg; lia | exact Hac].
    - rewrite <- !Z.pow_add_r by lia. f_equal. lia. }
  destruct ep as [|pe|pe] eqn:Hpe; try lia.
  exists (Z.pos mp / 2 ^ Z.pos pe).
  split; [exact Hdiv|]. split; [exact Hmul|].
  split. { unfold PyNum.int_of_float. rewrite Z.shiftr_div_pow2 by lia. reflexivity. }
  assert (HPw : 0 < 2 ^ Z.pos pe) by (apply Z.pow_pos_nonneg; lia).
  apply (scaled_floor a b c (Z.pos mp) (2 ^ k1) (2 ^ k2) (2 ^ s) (2 ^ (- ec))
           (2 ^ Z.pos pe)); try assumption.
  - lia.
  - rewrite <- !Z.pow_add_r by lia. f_equal. lia.
  - pose proof (Z.mul_div_le (Z.pos mp) (2 ^ Z.pos pe) HPw) as Hlo.
    pose proof (Z.mul_succ_div_gt (Z.pos mp) (2 ^ Z.pos pe) HPw) as Hhi.
    clear - Hlo Hhi. lia.
Qed.

(* ===================================================================== *)
(** * Properties: the per-page loop                                       *)
(* ===================================================================== *)

Section PipelineFacts.

Variable service : string → json → result HttpResponse.
Variables (api_url : string) (T : Z).

Lemma bind_Ok {A B} (m : result A) (f : A → result B) (b : B) :
  m ≫= f = Ok b → ∃ a, m = Ok a ∧ f a = Ok b.
Proof. destruct m as [a|e]; simpl; [eauto | discriminate]. Qed.

Lemma process_image_saved fs0 dir i p page :
  temp_pdf_images fs0 = Some dir →
  dir !! p = Some page →
  process_image service api_url T fs0 i p = page_entries service api_url T i page.
Proof.
  intros Hdir Hp. unfold process_image, page_entries, cv2_imread.
  rewrite Hdir. simpl. rewrite Hp. simpl.
  destruct (imread page) as [sh|]; reflexivity.
Qed.

Lemma save_pages_below pages :
  ∀ i dir paths dir' r k,
    save_pages i pages dir paths = (dir', r) →
    (k ≤ i)%nat →
    dir' !! k = dir !! k.
Proof.
  induction pages as [|page rest IH]; intros i dir paths dir' r k Hs Hk;
    simpl in Hs.
  - inversion Hs; subst. reflexivity.
  - destruct (renders page).
    + rewrite (IH _ _ _ _ _ k Hs) by lia.
      apply lookup_insert_ne. lia.
    + inversion Hs; subst. reflexivity.
Qed.

Lemma save_pages_rendered pages :
  ∀ i dir paths,
    Forall (fun page => renders page = true) pages →
    ∃ dir',
      save_pages i pages dir paths
        = (dir', Ok (paths ++ seq (S i) (length pages))) ∧
      (∀ j page, pages !! j = Some page → dir' !! (S i + j)%nat = Some page).
Proof.
  induction pages as [|page rest IH]; intros i dir paths Hall; simpl.
  - exists dir. rewrite app_nil_r. split; [reflexivity|].
    intros j page Hj. rewrite lookup_nil in Hj. discriminate.
  - inversion Hall as [|? ? Hr Hrest]; subst. rewrite Hr.
    destruct (IH (S i) (<[S i := page]> dir) (paths ++ [S i]) Hrest)
      as (dir' & Heq & Hlook).
    exists dir'. rewrite Heq, <- app_assoc. split; [reflexivity|].
    intros [|j] pg Hj; simpl in Hj.
    + inversion Hj; subst pg.
      rewrite Nat.add_0_r.
      rewrite (save_pages_below _ _ _ _ _ _ (S i) Heq) by lia.
      apply lookup_insert_eq.
    + specialize (Hlook j pg Hj).
      replace (S (S i) + j)%nat with (S (i + S j)) in Hlook by lia.
      exact Hlook.
Qed.

Lemma pages_loop_saved fs0 dir pages :
  temp_pdf_images fs0 = Some dir →
  ∀ i acc,
    (∀ j page, pages !! j = Some page → dir !! (S i + j)%nat = Some page) →
    pages_loop service api_url T fs0 i (seq (S i) (length pages)) acc
      = collect service api_url T i pages acc.
Proof.
  intros Hdir. induction pages as [|page rest IH]; intros i acc Hlook; simpl.
  - reflexivity.
  - rewrite (process_image_saved fs0 dir i (S i) page Hdir).
    2:{ specialize (Hlook 0%nat page eq_refl).
        simpl in Hlook. rewrite Nat.add_0_r in Hlook. exact Hlook. }
    destruct (page_entries service api_url T i page) as [entries|e]; simpl; [|reflexivity].
    apply IH. intros j pg Hj.
    specialize (Hlook (S j) pg Hj).
    replace (S i + S j)%nat with (S (S i) + j)%nat in Hlook by lia.
    exact Hlook.
Qed.

(** The whole of [process_pdf_file] on an uploaded PDF whose pages all
    render: the directory is gone afterwards and the result is that of
    the loop over the pages. *)
Lemma process_pdf_file_rendered pdf_input fs0 pages :
  tmp fs0 !! pdf_input = Some (Document pages) →
  Forall (fun page => renders page = true) pages →
  process_pdf_file service pdf_input api_url T fs0
    = (set_temp_pdf_images None fs0,
       all_markdowns ← collect service api_url T 0 pages [];
       _ ← total_chars all_markdowns;
       Ok (json_dumps (JList all_markdowns))).
Proof.
  intros Hfile Hall. unfold process_pdf_file, pdf_to_images.
  rewrite Hfile.
  destruct (save_pages_rendered pages 0 (default ∅ (temp_pdf_images fs0)) [] Hall)
    as (dir' & Hsave & Hlook).
  rewrite Hsave. simpl.
  erewrite (pages_loop_saved _ dir' pages _ 0%nat [] Hlook).
  reflexivity.
  Unshelve. reflexivity.
Qed.

End PipelineFacts.

Lemma has_count_len content :
  has_count content = true → ∃ n, py_len content = Ok n.
Proof. destruct content; simpl; try discriminate; eauto. Qed.

Lemma line_stats_Ok content :
  line_stats content = Ok () → has_count content = true.
Proof.
  unfold line_stats. destruct (py_len content); simpl; [|discriminate].
  destruct (has_count content); [reflexivity | discriminate].
Qed.

Lemma for_each_line_stats (page_markdowns : dict) :
  for_each (fun kv => line_stats kv.2) page_markdowns = Ok () →
  Forall (fun kv => has_count kv.2 = true) page_markdowns.
Proof.
  induction page_markdowns as [|kv rest IH]; simpl; intros H.
  - constructor.
  - destruct (line_stats kv.2) as [[]|e] eqn:Hkv; simpl in H; [|discriminate].
    constructor; [apply line_stats_Ok, Hkv | apply IH, H].
Qed.

Lemma total_chars_ok all_markdowns :
  Forall entry_ok all_markdowns → ∃ n, total_chars all_markdowns = Ok n.
Proof.
  induction 1 as [|e rest (page & content & -> & Hc) _ (m & IH)]; simpl.
  - eauto.
  - destruct (has_count_len content Hc) as (n & Hn).
    unfold md_content. simpl. rewrite Hn. simpl. rewrite IH. simpl. eauto.
Qed.

Section CollectFacts.

Variable service : string → json → result HttpResponse.
Variables (api_url : string) (T : Z).

Lemma page_entries_ok i page entries :
  page_entries service api_url T i page = Ok entries →
  Forall entry_ok entries.
Proof.
  unfold page_entries. destruct (imread page) as [sh|].
  2:{ intros H; inversion H; constructor. }
  intros H.
  do 4 (apply bind_Ok in H; destruct H as (? & _ & H)).
  apply bind_Ok in H. destruct H as (page_markdowns & _ & H).
  apply bind_Ok in H. destruct H as ([] & Hstats & H).
  inversion H; subst entries. clear H.
  apply for_each_line_stats in Hstats.
  induction Hstats as [|kv rest Hkv _ IH]; simpl; constructor; [|exact IH].
  exists (Z.of_nat i + 1), kv.2. split; [reflexivity | exact Hkv].
Qed.

Lemma collect_ok pages :
  ∀ i acc all_markdowns,
    collect service api_url T i pages acc = Ok all_markdowns →
    Forall entry_ok acc →
    Forall entry_ok all_markdowns.
Proof.
  induction pages as [|page rest IH]; simpl; intros i acc all H Hacc.
  - inversion H; subst. exact Hacc.
  - apply bind_Ok in H. destruct H as (entries & He & H).
    apply (IH _ _ _ H). apply Forall_app. split; [exact Hacc|].
    eapply page_entries_ok, He.
Qed.

(** [process_pdf_file] leaves the file system as it found it, less the
    directory [temp_pdf_images], whatever happens in between. *)
Lemma process_pdf_file_fs pdf_input fs0 :
  (process_pdf_file service pdf_input api_url T fs0).1
    = set_temp_pdf_images None fs0.
Proof.
  unfold process_pdf_file, pdf_to_images.
  destruct (tmp fs0 !! pdf_input) as [[|pages]|]; try reflexivity.
  destruct (save_pages 0 pages (default ∅ (temp_pdf_images fs0)) []);
    reflexivity.
Qed.

(** The text [process_pdf_file] returns is the dump of what the loop
    collected; it raises exactly when the loop does. *)
Lemma process_pdf_file_result pdf_input fs0 pages :
  tmp fs0 !! pdf_input = Some (Document pages) →
  Forall (fun page => renders page = true) pages →
  (process_pdf_file service pdf_input api_url T fs0).2
    = match collect service api_url T 0 pages [] with
      | Ok all_markdowns => Ok (json_dumps (JList all_markdowns))
      | Raise e => Raise e
      end.
Proof.
  intros Hfile Hall.
  rewrite (process_pdf_file_rendered _ _ _ _ _ _ Hfile Hall). simpl.
  destruct (collect service api_url T 0 pages []) as [all|e] eqn:Hc;
    simpl; [|reflexivity].
  destruct (total_chars_ok all) as (n & Hn).
  { eapply collect_ok; [exact Hc | constructor]. }
  rewrite Hn. reflexivity.
Qed.

End CollectFacts.

(* ===================================================================== *)
(** * Facts about the handler                                             *)
(* ===================================================================== *)

Lemma admission_cases rt value :
  admission rt value = Raise busy ∨
  (admission rt value = Ok (Nat.pred value) ∧
   Semaphore.locked value = false ∧ acquire_runs rt = true).
Proof.
  unfold admission, wait_for_acquire, Semaphore.acquire.
  destruct (Semaphore.locked value) eqn:Hl; simpl; [left; reflexivity|].
  destruct (acquire_runs rt); [right | left]; auto.
Qed.

Lemma admission_Ok rt value value' :
  admission rt value = Ok value' →
  value' = Nat.pred value ∧ Semaphore.locked value = false ∧
  acquire_runs rt = true.
Proof.
  destruct (admission_cases rt value) as [H|(H & Hl & Hr)]; rewrite H;
    [discriminate|].
  intros [= <-]. auto.
Qed.

Lemma release_after_acquire value :
  Semaphore.locked value = false →
  Semaphore.release (Nat.pred value) = value.
Proof.
  unfold Semaphore.locked, Semaphore.release.
  destruct value; [discriminate | reflexivity].
Qed.

Lemma world_eq (w w' : World) :
  processing_semaphore w = processing_semaphore w' → fs w = fs w' → w = w'.
Proof. destruct w, w'; simpl; intros -> ->; reflexivity. Qed.

Lemma fs_eq (f f' : FS) :
  temp_pdf_images f = temp_pdf_images f' → tmp f = tmp f' → f = f'.
Proof. destruct f, f'; simpl; intros -> ->; reflexivity. Qed.

Section HandlerFacts.

Variable service : string → json → result HttpResponse.

(** Once the upload is stored, the temporary file and the image
    directory are gone after it has been handled, whatever the outcome;
    a failure to store it leaves what the failure left. *)
Lemma process_upload_fs rt req fs0 :
  (process_upload service rt req fs0).1 = after_upload rt fs0.
Proof.
  unfold process_upload, after_upload.
  destruct (store rt); [|reflexivity..].
  match goal with
  | |- context [process_pdf_file ?s ?p ?u ?t ?f] =>
      pose proof (process_pdf_file_fs s u t p f) as Hfs;
      destruct (process_pdf_file s p u t f) as [fs2 r]
  end.
  simpl in Hfs. subst fs2. simpl.
  apply fs_eq; simpl; [reflexivity|].
  apply delete_insert_eq.
Qed.

(** Resuming the handler releases the semaphore once, on completion and
    on cancellation alike. *)
Lemma process_pdf_resume_semaphore rt req ev w :
  processing_semaphore (process_pdf_resume service rt req ev w).1
    = Semaphore.release (processing_semaphore w).
Proof.
  unfold process_pdf_resume.
  destruct ev; [destruct (process_upload service rt req (fs w))|];
    reflexivity.
Qed.

Lemma process_pdf_resume_fs rt req ev w :
  fs (process_pdf_resume service rt req ev w).1
    = match ev with
      | ReadCompleted => after_upload rt (fs w)
      | ReadCancelled => fs w
      end.
Proof.
  unfold process_pdf_resume. destruct ev.
  - pose proof (process_upload_fs rt req (fs w)) as H.
    destruct (process_upload service rt req (fs w)) as [fs' r].
    simpl in *. exact H.
  - reflexivity.
Qed.

Lemma process_pdf_begin_cases rt req w :
  process_pdf_begin rt req w = (w, Finished (Raise busy)) ∨
  (Semaphore.locked (processing_semaphore w) = false ∧
   acquire_runs rt = true ∧
   if endswith (lower (filename req)) ".pdf"
   then process_pdf_begin rt req w
          = (set_semaphore (Nat.pred (processing_semaphore w)) w,
             AwaitFileRead)
   else process_pdf_begin rt req w
          = (w, Finished (except_Exception (Raise unsupported_file_type)))).
Proof.
  unfold process_pdf_begin.
  destruct (admission_cases rt (processing_semaphore w))
    as [H|(H & Hl & Hr)]; rewrite H; [left; reflexivity|].
  right. split; [exact Hl|]. split; [exact Hr|].
  destruct (endswith (lower (filename req)) ".pdf"); simpl; [reflexivity|].
  f_equal. apply world_eq; simpl; [|reflexivity].
  apply release_after_acquire, Hl.
Qed.

(** A run that got the semaphore ends with the counter where it was. *)
Lemma process_pdf_semaphore rt req ev w :
  processing_semaphore (process_pdf service rt req ev w).1
    = processing_semaphore w.
Proof.
  unfold process_pdf.
  destruct (process_pdf_begin_cases rt req w) as [H|(Hl & _ & H)].
  - rewrite H. reflexivity.
  - destruct (endswith (lower (filename req)) ".pdf"); rewrite H;
      [|reflexivity].
    rewrite process_pdf_resume_semaphore. simpl.
    apply release_after_acquire, Hl.
Qed.

End HandlerFacts.

(* ===================================================================== *)
(** * Properties: one record per page, and remote failures                *)
(* ===================================================================== *)

Section Records.

Variable service : string → json → result HttpResponse.
Variables (api_url : string) (T : Z).

Lemma answered_once_entries i page content :
  answered_once service api_url T page content →
  page_entries service api_url T i page
    = Ok [page_json (Z.of_nat i + 1) content].
Proof.
  intros (os & rs & data & resp & j & r & res & md & H1 & H2 & H3 & H4
          & H5 & H6 & H7 & H8 & H9 & H10 & H11).
  unfold page_entries. rewrite H1, H2. cbn [mbind result_bind].
  unfold encode_image_to_base64. rewrite H3. cbn [mbind result_bind].
  unfold call_layout_parsing_api. rewrite H4. cbn [mbind result_bind].
  unfold process_layout_parsing_result. rewrite H5, H6, H7.
  cbn [mbind result_bind Z.eqb Pos.eqb].
  unfold extract_markdown_from_result. rewrite H8.
  cbn [mbind result_bind py_iter extract_loop]. rewrite H9.
  cbn [mbind result_bind]. rewrite H10.
  cbn [mbind result_bind dict_set for_each snd].
  unfold line_stats. destruct (has_count_len content H11) as (n & ->).
  cbn [mbind result_bind]. rewrite H11. reflexivity.
Qed.

Lemma remote_call_fails_entries i page :
  remote_call_fails service api_url T page →
  page_entries service api_url T i page = Raise AssertionError.
Proof.
  intros (os & rs & data & resp & H1 & H2 & H3 & H4 & H5).
  unfold page_entries. rewrite H1, H2. cbn [mbind result_bind].
  unfold encode_image_to_base64. rewrite H3. cbn [mbind result_bind].
  unfold call_layout_parsing_api. rewrite H4. cbn [mbind result_bind].
  unfold process_layout_parsing_result.
  destruct (Z.eqb_spec (status_code resp) 200) as [E|_]; [contradiction|].
  reflexivity.
Qed.

Lemma collect_answered_once pages :
  ∀ contents i acc,
    Forall2 (answered_once service api_url T) pages contents →
    collect service api_url T i pages acc
      = Ok (acc ++ records_from i contents).
Proof.
  induction pages as [|page rest IH]; intros contents i acc H;
    inversion H as [|? content ? contents' Hp Hrest]; subst; simpl.
  - rewrite app_nil_r. reflexivity.
  - rewrite (answered_once_entries i page content Hp).
    cbn [mbind result_bind]. rewrite (IH contents' (S i) _ Hrest).
    rewrite <- app_assoc. reflexivity.
Qed.

Lemma records_from_length contents : ∀ i,
  length (records_from i contents) = length contents.
Proof. induction contents; intros i; simpl; [|rewrite IHcontents]; reflexivity. Qed.

Lemma records_from_lookup contents : ∀ i j content,
  contents !! j = Some content →
  records_from i contents !! j
    = Some (page_json (Z.of_nat (i + j) + 1) content).
Proof.
  induction contents as [|c rest IH]; intros i [|j] content Hj;
    simpl in *; try discriminate.
  - inversion Hj; subst. rewrite Nat.add_0_r. reflexivity.
  - rewrite (IH (S i) j content Hj).
    replace (S i + j)%nat with (i + S j)%nat by lia. reflexivity.
Qed.

(** A failure of the loop body on one page is the outcome of the whole
    loop, whatever pages follow. *)
Lemma collect_raises before : ∀ page after e i acc,
  (∀ j p, before !! j = Some p →
          is_Ok (page_entries service api_url T (i + j) p) = true) →
  page_entries service api_url T (i + length before) page = Raise e →
  collect service api_url T i (before ++ page :: after) acc = Raise e.
Proof.
  induction before as [|p rest IH]; intros page after e i acc Hok Hk;
    simpl in *.
  - rewrite Nat.add_0_r in Hk. rewrite Hk. reflexivity.
  - pose proof (Hok 0%nat p eq_refl) as H0. rewrite Nat.add_0_r in H0.
    destruct (page_entries service api_url T i p) as [entries|];
      [|discriminate].
    cbn [mbind result_bind]. apply IH.
    + intros j q Hj. specialize (Hok (S j) q Hj).
      replace (S i + j)%nat with (i + S j)%nat by lia. exact Hok.
    + replace (S i + length rest)%nat with (i + S (length rest))%nat by lia.
      exact Hk.
Qed.

End Records.

Section Responses.

Variable service : string → json → result HttpResponse.

Lemma process_upload_result rt req fs0 :
  store rt = Stored →
  (process_upload service rt req fs0).2
    = response_of req
        (process_pdf_file service (temp_file_path rt) (api_url req)
           (longest_side req)
           (set_tmp (<[temp_file_path rt := file req]> (tmp fs0)) fs0)).2.
Proof.
  intros Hstore. unfold process_upload, response_of. rewrite Hstore.
  destruct (process_pdf_file service (temp_file_path rt) (api_url req)
              (longest_side req)
              (set_tmp (<[temp_file_path rt := file req]> (tmp fs0)) fs0));
    reflexivity.
Qed.

Lemma process_pdf_completed rt req w value :
  admission rt (processing_semaphore w) = Ok value →
  endswith (lower (filename req)) ".pdf" = true →
  (process_pdf service rt req ReadCompleted w).2
    = except_Exception (process_upload service rt req (fs w)).2.
Proof.
  intros Hadm Hpdf. unfold process_pdf, process_pdf_begin.
  rewrite Hadm, Hpdf. simpl. unfold process_pdf_resume. simpl.
  destruct (process_upload service rt req (fs w)); reflexivity.
Qed.

(** An upload that cannot be stored is answered 500. *)
Lemma process_upload_not_stored rt req fs0 :
  store rt ≠ Stored →
  (process_upload service rt req fs0).2 = Raise OSError.
Proof.
  unfold process_upload. destruct (store rt); [congruence | reflexivity..].
Qed.

(** The upload is what [fitz.open] finds under the temporary name. *)
Lemma upload_stored rt req fs0 :
  tmp (set_tmp (<[temp_file_path rt := file req]> (tmp fs0)) fs0)
    !! temp_file_path rt = Some (file req).
Proof. simpl. apply lookup_insert_eq. Qed.

End Responses.

(** On pages that are each answered once, [process_pdf_file] returns the
    records of pages 1, 2, ... in order. *)
Lemma process_pdf_file_answered_once
    service pdf_input api_url T fs0 pages contents :
  tmp fs0 !! pdf_input = Some (Document pages) →
  Forall (fun page => renders page = true) pages →
  Forall2 (answered_once service api_url T) pages contents →
  (process_pdf_file service pdf_input api_url T fs0).2
    = Ok (json_dumps (JList (records_from 0 contents))).
Proof.
  intros Hfile Hrender Hans.
  rewrite (process_pdf_file_result _ _ _ _ _ _ Hfile Hrender).
  rewrite (collect_answered_once _ _ _ _ _ 0%nat [] Hans). reflexivity.
Qed.

(** C2, counterexample: a valid two-page PDF whose first page image
    cannot be read back yields a single record, that of page 2. *)
Lemma unreadable_page_has_no_record :
  ¬ one_record_per_page [Examples.unreadable; Examples.page_2]
      (process_pdf_file Examples.service Examples.path Examples.url 1280
         (Examples.uploaded [Examples.unreadable; Examples.page_2])).2.
Proof.
  intros (records & Hout & Hlen & _).
  vm_compute in Hout. inversion Hout; subst records. discriminate Hlen.
Qed.

(** C2 (amended): for every valid N-page PDF whose pages all render, are
    all read back, and are each answered by the service with status 200
    and exactly one layout-parsing entry, the run returns exactly N
    records, and their page indices are 1..N in ascending order. *)
Theorem one_record_per_answered_page
    service pdf_input api_url T fs0 pages contents :
  tmp fs0 !! pdf_input = Some (Document pages) →
  Forall (fun page => renders page = true) pages →
  Forall2 (answered_once service api_url T) pages contents →
  (process_pdf_file service pdf_input api_url T fs0).2
    = Ok (json_dumps (JList (records_from 0 contents))) ∧
  one_record_per_page pages
    (process_pdf_file service pdf_input api_url T fs0).2.
Proof.
  intros Hfile Hrender Hans.
  rewrite (process_pdf_file_answered_once _ _ _ _ _ _ _ Hfile Hrender Hans).
  split; [reflexivity|].
  exists (records_from 0 contents). split; [reflexivity|].
  pose proof (Forall2_length _ _ _ Hans) as Hlen.
  split; [rewrite records_from_length; symmetry; exact Hlen|].
  intros i Hi.
  destruct (lookup_lt_is_Some_2 contents i) as (content & Hc); [lia|].
  exists content. rewrite (records_from_lookup _ _ _ _ Hc). reflexivity.
Qed.

Lemma example_answered_once data text :
  Examples.service Examples.url (create_layout_parsing_payload data 1)
    = Ok (Examples.layout_answer text) →
  answered_once Examples.service Examples.url 1280 (Examples.a4 data)
    (JStr text).
Proof.
  intros H. unfold answered_once.
  exists (1684, 1191), (1280, 905), data, (Examples.layout_answer text).
  do 4 eexists.
  repeat split; try reflexivity; [exact H].
Defined.

Lemma one_record_per_answered_page_witness :
  one_record_per_page [Examples.page_1; Examples.page_2; Examples.page_3]
    (process_pdf_file Examples.service Examples.path Examples.url 1280
       (Examples.uploaded
          [Examples.page_1; Examples.page_2; Examples.page_3])).2.
Proof.
  refine (proj2 (one_record_per_answered_page Examples.service Examples.path
                   Examples.url 1280 _ _
                   [JStr "Page 1"; JStr "Page 2"; JStr "Page 3"] _ _ _)).
  - vm_compute. reflexivity.
  - repeat constructor.
  - repeat constructor; apply example_answered_once; vm_compute; reflexivity.
Defined.

(** C1, counterexample: on a two-page document whose first page is answered
    with HTTP 500 the run does not continue: no records are returned, not
    even that of page 2, which the service would have answered. *)
Lemma failed_remote_call_stops_the_run :
  ¬ continues_past_failure Examples.service Examples.url 1280
      [Examples.rejected_page; Examples.page_2] 0
      (process_pdf_file Examples.service Examples.path Examples.url 1280
         (Examples.uploaded [Examples.rejected_page; Examples.page_2])).2.
Proof.
  intros (records & Hout & _). vm_compute in Hout. discriminate Hout.
Qed.

(** C1 (amended): when the service answers the payload of page k with a
    status other than 200, and the pages before k were processed without
    an exception, [process_pdf_file] raises [AssertionError] after
    removing the image directory: no record is returned for any page and
    the pages after k play no part; an admitted [/process-pdf] request
    then answers 500 and leaves the semaphore counter as it found it. *)
Theorem remote_failure_aborts_run
    service rt req w value before page after :
  admission rt (processing_semaphore w) = Ok value →
  endswith (lower (filename req)) ".pdf" = true →
  file req = Document (before ++ page :: after) →
  Forall (fun p => renders p = true) (before ++ page :: after) →
  (∀ j p, before !! j = Some p →
          is_Ok (page_entries service (api_url req) (longest_side req) j p)
            = true) →
  remote_call_fails service (api_url req) (longest_side req) page →
  (∀ fs0 pdf_input,
     tmp fs0 !! pdf_input = Some (file req) →
     process_pdf_file service pdf_input (api_url req) (longest_side req) fs0
       = (set_temp_pdf_images None fs0, Raise AssertionError)) ∧
  http_status (process_pdf service rt req ReadCompleted w).2 = Some 500 ∧
  processing_semaphore (process_pdf service rt req ReadCompleted w).1
    = processing_semaphore w.
Proof.
  intros Hadm Hpdf Hfile Hrender Hbefore Hfail.
  assert (Hcollect :
            collect service (api_url req) (longest_side req) 0
              (before ++ page :: after) [] = Raise AssertionError).
  { apply collect_raises; [exact Hbefore|].
    apply remote_call_fails_entries, Hfail. }
  assert (Hrun : ∀ fs0 pdf_input,
             tmp fs0 !! pdf_input = Some (file req) →
             process_pdf_file service pdf_input (api_url req)
               (longest_side req) fs0
             = (set_temp_pdf_images None fs0, Raise AssertionError)).
  { intros fs0 pdf_input Hin. rewrite Hfile in Hin.
    rewrite (process_pdf_file_rendered _ _ _ _ _ _ Hin Hrender).
    rewrite Hcollect. reflexivity. }
  split; [exact Hrun|]. split; [|apply process_pdf_semaphore].
  rewrite (process_pdf_completed _ _ _ _ _ Hadm Hpdf).
  destruct (store rt) eqn:Hstore.
  - rewrite (process_upload_result _ _ _ _ Hstore).
    rewrite (Hrun _ _ (upload_stored rt req (fs w))). reflexivity.
  - rewrite process_upload_not_stored by congruence. reflexivity.
  - rewrite process_upload_not_stored by congruence. reflexivity.
Qed.

Lemma example_remote_call_fails :
  remote_call_fails Examples.service Examples.url 1280 Examples.rejected_page.
Proof.
  exists (1684, 1191), (1280, 905), "YnJva2Vu"%string, Examples.internal_error.
  repeat split; try reflexivity. vm_compute. discriminate.
Defined.

Lemma remote_failure_aborts_run_witness :
  http_status
    (process_pdf Examples.service Examples.runtime
       (Examples.upload "scan.pdf"
          [Examples.page_1; Examples.rejected_page; Examples.page_3])
       ReadCompleted Examples.idle).2 = Some 500.
Proof.
  refine (proj1 (proj2
    (remote_failure_aborts_run Examples.service Examples.runtime
       (Examples.upload "scan.pdf"
          [Examples.page_1; Examples.rejected_page; Examples.page_3])
       Examples.idle 0%nat [Examples.page_1] Examples.rejected_page
       [Examples.page_3] _ _ _ _ _ _))).
  - vm_compute. reflexivity.
  - vm_compute. reflexivity.
  - reflexivity.
  - repeat constructor.
  - intros [|j] p Hj; [|destruct j; discriminate Hj].
    inversion Hj; subst p. vm_compute. reflexivity.
  - exact example_remote_call_fails.
Defined.

(* ===================================================================== *)
(** * Properties: the admission gate                                      *)
(* ===================================================================== *)

Lemma begin_locked rt req w :
  Semaphore.locked (processing_semaphore w) = true →
  process_pdf_begin rt req w = (w, Finished (Raise busy)).
Proof.
  intros Hl. unfold process_pdf_begin, admission. rewrite Hl. reflexivity.
Qed.

(** C4: a run that acquired the semaphore gives it back on every way out
    (a returned response, an exception turned into a 500, a cancellation
    while the upload is read): afterwards the counter is what it was, the
    semaphore is not locked, and the next acquisition attempt succeeds. *)
Theorem semaphore_released_on_every_exit service rt req ev w value :
  admission rt (processing_semaphore w) = Ok value →
  processing_semaphore (process_pdf service rt req ev w).1
    = processing_semaphore w ∧
  Semaphore.locked (processing_semaphore (process_pdf service rt req ev w).1)
    = false ∧
  Semaphore.acquire (processing_semaphore (process_pdf service rt req ev w).1)
    = Some value ∧
  ∀ rt', acquire_runs rt' = true →
         admission rt' (processing_semaphore (process_pdf service rt req ev w).1)
           = Ok value.
Proof.
  intros Hadm. apply admission_Ok in Hadm as (-> & Hl & _).
  rewrite process_pdf_semaphore.
  split; [reflexivity|]. split; [exact Hl|].
  unfold admission, wait_for_acquire, Semaphore.acquire. rewrite Hl.
  split; [reflexivity|]. intros rt' ->. reflexivity.
Qed.

Lemma semaphore_released_on_every_exit_witness :
  Semaphore.acquire
    (processing_semaphore
       (process_pdf Examples.service Examples.runtime
          (Examples.upload "scan.pdf" [Examples.rejected_page])
          ReadCompleted Examples.idle).1) = Some 0%nat.
Proof.
  refine (proj1 (proj2 (proj2
    (semaphore_released_on_every_exit Examples.service Examples.runtime
       (Examples.upload "scan.pdf" [Examples.rejected_page])
       ReadCompleted Examples.idle 0%nat _)))).
  vm_compute. reflexivity.
Defined.

(** C5: a request that arrives while the semaphore is held is answered
    429 with the busy message within the same step of the handler: it
    never suspends, the world (semaphore and files) is left as it was,
    and the run in flight resumes exactly as it would have without it. *)
Theorem busy_request_rejected_at_once service rt req w :
  Semaphore.locked (processing_semaphore w) = true →
  process_pdf_begin rt req w = (w, Finished (Raise busy)) ∧
  (∀ ev, process_pdf service rt req ev w = (w, Raise busy)) ∧
  http_status (Raise busy) = Some 429 ∧
  ∀ rt1 req1 ev1,
    process_pdf_resume service rt1 req1 ev1 (process_pdf_begin rt req w).1
      = process_pdf_resume service rt1 req1 ev1 w.
Proof.
  intros Hl. pose proof (begin_locked rt req w Hl) as Hb.
  split; [exact Hb|]. split; [|split; [reflexivity|]].
  - intros ev. unfold process_pdf. rewrite Hb. reflexivity.
  - intros rt1 req1 ev1. rewrite Hb. reflexivity.
Qed.

Lemma busy_request_rejected_at_once_witness :
  process_pdf_begin Examples.runtime
    (Examples.upload "scan.pdf" [Examples.page_1]) Examples.occupied
    = (Examples.occupied, Finished (Raise busy)).
Proof.
  refine (proj1 (busy_request_rejected_at_once Examples.service
                   Examples.runtime
                   (Examples.upload "scan.pdf" [Examples.page_1])
                   Examples.occupied _)).
  reflexivity.
Defined.

(** The scenario of C5 end to end: while a first request waits for its
    upload, holding the only slot, a second one is turned away and the
    first completes as if it had been alone. *)
Lemma second_request_while_first_in_flight
    service rtA reqA ev rtB reqB w0 w1 :
  processing_semaphore w0 = 1%nat →
  process_pdf_begin rtA reqA w0 = (w1, AwaitFileRead) →
  process_pdf_begin rtB reqB w1 = (w1, Finished (Raise busy)) ∧
  process_pdf_resume service rtA reqA ev (process_pdf_begin rtB reqB w1).1
    = process_pdf service rtA reqA ev w0.
Proof.
  intros Hone HA.
  assert (Hl : Semaphore.locked (processing_semaphore w1) = true).
  { destruct (process_pdf_begin_cases rtA reqA w0) as [H|(_ & _ & H)];
      [rewrite H in HA; discriminate|].
    destruct (endswith (lower (filename reqA)) ".pdf");
      rewrite H in HA; [|discriminate].
    inversion HA; subst w1. simpl. rewrite Hone. reflexivity. }
  rewrite (begin_locked rtB reqB w1 Hl). split; [reflexivity|].
  unfold process_pdf. rewrite HA. reflexivity.
Qed.

(* ===================================================================== *)
(** * Properties: the file type check                                     *)
(* ===================================================================== *)

(** Whatever the state of the gate, an upload whose name does not end in
    [.pdf] is answered 429 or 500, and the world is left as it was. *)
Lemma non_pdf_upload_answer service rt req ev w :
  endswith (lower (filename req)) ".pdf" = false →
  (process_pdf service rt req ev w).1 = w ∧
  ((process_pdf service rt req ev w).2 = Raise busy ∨
   (process_pdf service rt req ev w).2
     = Raise (HTTPException 500
                ("处理PDF文件时发生错误: " +:+ str_exn unsupported_file_type))).
Proof.
  intros Hpdf. unfold process_pdf.
  destruct (process_pdf_begin_cases rt req w) as [H|(_ & _ & H)].
  - rewrite H. auto.
  - rewrite Hpdf in H. rewrite H. auto.
Qed.

(** C3, the code at the failing input: with the gate free, an upload named
    [notes.txt] is answered 500, not 400; the counter is 1 as before. *)
Theorem non_pdf_upload_answers_500 :
  http_status
    (process_pdf Examples.service Examples.runtime
       (Examples.upload "notes.txt" [Examples.page_1])
       ReadCompleted Examples.idle).2 = Some 500 ∧
  processing_semaphore
    (process_pdf Examples.service Examples.runtime
       (Examples.upload "notes.txt" [Examples.page_1])
       ReadCompleted Examples.idle).1 = 1%nat.
Proof. vm_compute. split; reflexivity. Qed.

(* ===================================================================== *)
(** * Properties: the responses                                           *)
(* ===================================================================== *)

Lemma save_pages_cases pages : ∀ i dir paths,
  Forall (fun page => renders page = true) pages ∨
  (save_pages i pages dir paths).2 = Raise RenderError.
Proof.
  induction pages as [|page rest IH]; intros i dir paths; simpl.
  - left. constructor.
  - destruct (renders page) eqn:Hr; [|right; reflexivity].
    destruct (IH (S i) (<[S i:=page]> dir) (paths ++ [S i])) as [H|H];
      [left; constructor; assumption | right; exact H].
Qed.

Section ResponseFacts.

Variable service : string → json → result HttpResponse.

(** When [process_pdf_file] returns, it returns the dump of what the
    loop collected from the pages of the PDF found under the path. *)
Lemma process_pdf_file_Ok pdf_input api_url T fs0 text :
  (process_pdf_file service pdf_input api_url T fs0).2 = Ok text →
  ∃ pages all_markdowns,
    tmp fs0 !! pdf_input = Some (Document pages) ∧
    collect service api_url T 0 pages [] = Ok all_markdowns ∧
    text = json_dumps (JList all_markdowns).
Proof.
  intros H.
  destruct (tmp fs0 !! pdf_input) as [[|pages]|] eqn:Hfile;
    try (unfold process_pdf_file, pdf_to_images in H; rewrite Hfile in H;
         discriminate H).
  destruct (save_pages_cases pages 0 (default ∅ (temp_pdf_images fs0)) [])
    as [Hall|Hraise].
  - rewrite (process_pdf_file_result _ _ _ _ _ _ Hfile Hall) in H.
    destruct (collect service api_url T 0 pages []) as [all|e] eqn:Hc;
      [|discriminate H].
    exists pages, all. inversion H. auto.
  - unfold process_pdf_file, pdf_to_images in H. rewrite Hfile in H.
    destruct (save_pages 0 pages (default ∅ (temp_pdf_images fs0)) [])
      as [d r]. simpl in Hraise. subst r. discriminate H.
Qed.

(** Only a completed, admitted run over a document answers 200, and
    then the response is built from the collected records. *)
Lemma status_200 rt req ev w :
  http_status (process_pdf service rt req ev w).2 = Some 200 →
  ∃ pages results,
    file req = Document pages ∧
    collect service (api_url req) (longest_side req) 0 pages [] = Ok results ∧
    (process_pdf service rt req ev w).2
      = response_of req (Ok (json_dumps (JList results))).
Proof.
  unfold process_pdf.
  destruct (process_pdf_begin_cases rt req w) as [H|(_ & _ & H)].
  { rewrite H. discriminate. }
  destruct (endswith (lower (filename req)) ".pdf");
    rewrite H; [|discriminate].
  unfold process_pdf_resume. destruct ev; [|discriminate]. simpl.
  assert (Hstore : store rt = Stored ∨ store rt ≠ Stored)
    by (destruct (store rt); [left; reflexivity | right; discriminate..]).
  destruct Hstore as [Hstore|Hstore].
  2:{ pose proof (process_upload_not_stored service rt req (fs w) Hstore)
        as Hres.
      destruct (process_upload service rt req (fs w)) as [fs' r].
      simpl in Hres. subst r. discriminate. }
  pose proof (process_upload_result service rt req (fs w) Hstore) as Hres.
  destruct (process_upload service rt req (fs w)) as [fs' r].
  simpl in Hres. subst r. simpl.
  match goal with
  | |- context [response_of req ?x] => destruct x as [text|e] eqn:Hrun
  end.
  2:{ simpl. destruct e; simpl; intros Hs; discriminate Hs. }
  apply process_pdf_file_Ok in Hrun as (pages & results & Hfile & Hc & ->).
  simpl in Hfile. rewrite lookup_insert_eq in Hfile.
  inversion Hfile as [Hf]. intros Hs. exists pages, results.
  split; [exact Hf|]. split; [exact Hc|].
  assert (Hgen : ∀ r, http_status (except_Exception r) = Some 200 →
                      except_Exception r = r).
  { intros [resp|e] Hr; [reflexivity|].
    destruct e; simpl in Hr; discriminate Hr. }
  apply Hgen, Hs.
Qed.

End ResponseFacts.

(** C10: in every 200 response [total_pages] is the length of [results],
    and [results] is what the loop collected from the pages: one entry
    per layout-parsing entry of each page that was read back, nothing for
    a page that was not. *)
Theorem total_pages_is_length_of_results service rt req ev w :
  http_status (process_pdf service rt req ev w).2 = Some 200 →
  ∃ pages results,
    file req = Document pages ∧
    collect service (api_url req) (longest_side req) 0 pages [] = Ok results ∧
    (process_pdf service rt req ev w).2
      = Ok {| content :=
                JDict [("success", JBool true);
                       ("filename", JStr (filename req));
                       ("total_pages", JInt (Z.of_nat (length results)));
                       ("results", JList results)];
              status := 200 |}.
Proof.
  intros H. destruct (status_200 service rt req ev w H)
    as (pages & results & Hfile & Hc & Hr).
  exists pages, results. split; [exact Hfile|]. split; [exact Hc|].
  rewrite Hr in H |- *. unfold response_of in *. simpl in *.
  unfold make_JSONResponse in *.
  destruct (json_finite _); [reflexivity | discriminate H].
Qed.

Lemma total_pages_is_length_of_results_witness :
  ∃ pages results,
    file (Examples.upload "scan.pdf" [Examples.unreadable; Examples.page_2])
      = Document pages ∧
    collect Examples.service Examples.url 1280 0 pages [] = Ok results ∧
    (process_pdf Examples.service Examples.runtime
       (Examples.upload "scan.pdf" [Examples.unreadable; Examples.page_2])
       ReadCompleted Examples.idle).2
      = Ok {| content :=
                JDict [("success", JBool true);
                       ("filename", JStr "scan.pdf");
                       ("total_pages", JInt (Z.of_nat (length results)));
                       ("results", JList results)];
              status := 200 |}.
Proof.
  refine (total_pages_is_length_of_results Examples.service Examples.runtime
            (Examples.upload "scan.pdf" [Examples.unreadable; Examples.page_2])
            ReadCompleted Examples.idle _).
  vm_compute. reflexivity.
Defined.

(** A page that is dropped shrinks [total_pages]: two pages, one record. *)
Example total_pages_after_drop :
  (process_pdf Examples.service Examples.runtime
     (Examples.upload "scan.pdf" [Examples.unreadable; Examples.page_2])
     ReadCompleted Examples.idle).2
  = Ok {| content :=
            JDict [("success", JBool true);
                   ("filename", JStr "scan.pdf");
                   ("total_pages", JInt 1);
                   ("results", JList [page_json 2 (JStr "Page 2")])];
          status := 200 |}.
Proof. vm_compute. reflexivity. Qed.

(** C8, the code at the failing input: a valid PDF without pages, sent
    under the name [empty.pdf] to an idle server on the event loop as
    CPython runs it.  Rendering such a document does return the empty
    list of images, but the request never gets that far: the acquisition
    behind [asyncio.wait_for] is cancelled before it starts, so the
    request is answered 429, not 200, and nothing else happens. *)
Theorem zero_page_pdf_answered_429 :
  (pdf_to_images Examples.path (Examples.uploaded [])).2 = Ok [] ∧
  http_status
    (process_pdf Examples.service Scenarios.standard_runtime
       (Examples.upload "empty.pdf" []) ReadCompleted Examples.idle).2
    = Some 429 ∧
  (process_pdf Examples.service Scenarios.standard_runtime
     (Examples.upload "empty.pdf" []) ReadCompleted Examples.idle).1
    = Examples.idle.
Proof. vm_compute. repeat split. Qed.

(* ===================================================================== *)
(** * Properties: temporary files                                         *)
(* ===================================================================== *)

Section Cleanup.

Variable service : string → json → result HttpResponse.

(** The file system after a request: untouched when the request is
    turned away or cancelled, and otherwise what handling the upload
    leaves. *)
Lemma process_pdf_fs rt req ev w :
  fs (process_pdf service rt req ev w).1 = fs w ∨
  (ev = ReadCompleted ∧
   endswith (lower (filename req)) ".pdf" = true ∧
   fs (process_pdf service rt req ev w).1 = after_upload rt (fs w)).
Proof.
  unfold process_pdf.
  destruct (process_pdf_begin_cases rt req w) as [H|(_ & _ & H)].
  { rewrite H. left. reflexivity. }
  destruct (endswith (lower (filename req)) ".pdf");
    rewrite H; [|left; reflexivity].
  rewrite process_pdf_resume_fs. destruct ev; [right | left]; auto.
Qed.

End Cleanup.


(** X22: unless writing the temporary copy of the upload fails, a
    request leaves nothing behind, whatever its outcome (a response, an
    error status, a cancellation): no file of the temporary directory
    exists afterwards that did not exist before, and the image directory
    is either gone or was never touched; a run whose upload was stored
    leaves neither the temporary file nor the image directory. *)
Theorem artifacts_removed_unless_write_fails service rt req ev w :
  (∀ partial, store rt ≠ WriteFailed partial) →
  tmp (fs (process_pdf service rt req ev w).1) ⊆ tmp (fs w) ∧
  (temp_pdf_images (fs (process_pdf service rt req ev w).1) = None ∨
   fs (process_pdf service rt req ev w).1 = fs w) ∧
  (∀ value,
     admission rt (processing_semaphore w) = Ok value →
     endswith (lower (filename req)) ".pdf" = true →
     ev = ReadCompleted →
     store rt = Stored →
     tmp (fs (process_pdf service rt req ev w).1) !! temp_file_path rt = None ∧
     temp_pdf_images (fs (process_pdf service rt req ev w).1) = None).
Proof.
  intros Hwrite. split; [|split].
  - destruct (process_pdf_fs service rt req ev w) as [->|(_ & _ & ->)];
      [reflexivity|].
    unfold after_upload. destruct (store rt) as [| |partial];
      [simpl; apply delete_subseteq | reflexivity |].
    destruct (Hwrite partial eq_refl).
  - destruct (process_pdf_fs service rt req ev w) as [->|(_ & _ & ->)];
      [right; reflexivity|].
    unfold after_upload. destruct (store rt) as [| |partial];
      [left; reflexivity | right; reflexivity |].
    destruct (Hwrite partial eq_refl).
  - intros value Hadm Hpdf -> Hstore.
    unfold process_pdf, process_pdf_begin. rewrite Hadm, Hpdf. simpl.
    rewrite process_pdf_resume_fs. unfold after_upload. rewrite Hstore.
    simpl. split; [apply lookup_delete_eq | reflexivity].
Qed.

Lemma artifacts_removed_unless_write_fails_witness :
  tmp (fs (process_pdf Examples.service Examples.runtime
             (Examples.upload "scan.pdf" [Examples.rejected_page])
             ReadCompleted Examples.idle).1) ⊆ tmp (fs Examples.idle).
Proof.
  refine (proj1
    (artifacts_removed_unless_write_fails Examples.service Examples.runtime
       (Examples.upload "scan.pdf" [Examples.rejected_page])
       ReadCompleted Examples.idle _)).
  intros partial. discriminate.
Defined.

(** The image directory of an earlier, interrupted run is removed too. *)
Example stale_directory_removed :
  fs (process_pdf Examples.service Examples.runtime
        (Examples.upload "scan.pdf" [Examples.page_1; Examples.rejected_page])
        ReadCompleted
        {| processing_semaphore := 1;
           fs := {| temp_pdf_images := Some {[ 7%nat := Examples.page_3 ]};
                    tmp := ∅ |} |}).1
  = Examples.empty_fs.
Proof. vm_compute. reflexivity. Qed.

(* ===================================================================== *)
(** * Properties: the three-page scenario                                 *)
(* ===================================================================== *)

(** C7, the code at the failing input: a three-page PDF whose page N
    the service answers with the markdown "Page N", sent as [scan.pdf]
    with [longest_side] 1280 to an idle server on the event loop as
    CPython runs it.  The acquisition behind [asyncio.wait_for] is
    cancelled before it starts: the request is answered 429, there is no
    200 response and no result array, and the service is never
    consulted. *)
Theorem three_page_document_answered_429 :
  process_pdf Examples.service Scenarios.standard_runtime
    (Examples.upload "scan.pdf"
       [Examples.page_1; Examples.page_2; Examples.page_3])
    ReadCompleted Examples.idle
  = (Examples.idle, Raise busy) ∧
  http_status (Raise busy) = Some 429.
Proof. vm_compute. split; reflexivity. Qed.

(** X23: past the admission check and with the upload stored, a
    three-page document whose page N the service answers with the
    markdown "Page N" is answered 200 with exactly three result objects,
    each of the shape
    [{"page": N, "ocrContent": {"backend": "pipeline", "version": ...,
    "results": {"image": {"md_content": ...}}}}], and the [md_content] of
    [results[1]] is "Page 2". *)
Theorem three_page_document service rt req w value p1 p2 p3 :
  admission rt (processing_semaphore w) = Ok value →
  store rt = Stored →
  endswith (lower (filename req)) ".pdf" = true →
  file req = Document [p1; p2; p3] →
  Forall (fun page => renders page = true) [p1; p2; p3] →
  answered_once service (api_url req) (longest_side req) p1 (JStr "Page 1") →
  answered_once service (api_url req) (longest_side req) p2 (JStr "Page 2") →
  answered_once service (api_url req) (longest_side req) p3 (JStr "Page 3") →
  ∃ results second,
    (process_pdf service rt req ReadCompleted w).2
      = Ok {| content :=
                JDict [("success", JBool true);
                       ("filename", JStr (filename req));
                       ("total_pages", JInt 3);
                       ("results", JList results)];
              status := 200 |} ∧
    length results = 3%nat ∧
    (∀ i, (i < 3)%nat →
       ∃ text,
         results !! i
           = Some (JDict [("page", JInt (Z.of_nat i + 1));
                          ("ocrContent",
                           JDict [("backend", JStr "pipeline");
                                  ("version", JStr "2.5.4");
                                  ("results",
                                   JDict [("image",
                                     JDict [("md_content", JStr text)])])])])) ∧
    results !! 1%nat = Some second ∧
    md_content second = Ok (JStr "Page 2").
Proof.
  intros Hadm Hstore Hpdf Hfile Hrender H1 H2 H3.
  exists (records_from 0 [JStr "Page 1"; JStr "Page 2"; JStr "Page 3"]),
         (page_json 2 (JStr "Page 2")).
  split; [|split; [reflexivity|split; [|split; reflexivity]]].
  - rewrite (process_pdf_completed _ _ _ _ _ Hadm Hpdf).
    rewrite (process_upload_result _ _ _ _ Hstore).
    pose proof (upload_stored rt req (fs w)) as Hin.
    rewrite Hfile in Hin at 2.
    assert (Hans : Forall2 (answered_once service (api_url req)
                              (longest_side req)) [p1; p2; p3]
                     [JStr "Page 1"; JStr "Page 2"; JStr "Page 3"]).
    { constructor; [exact H1|]. constructor; [exact H2|].
      constructor; [exact H3|]. constructor. }
    rewrite (process_pdf_file_answered_once service _ _ _ _ _ _
               Hin Hrender Hans).
    reflexivity.
  - intros [|[|[|i]]] Hi; [eexists; reflexivity .. | lia].
Qed.

Lemma three_page_document_witness :
  ∃ results second,
    (process_pdf Examples.service Examples.runtime
       (Examples.upload "scan.pdf"
          [Examples.page_1; Examples.page_2; Examples.page_3])
       ReadCompleted Examples.idle).2
      = Ok {| content :=
                JDict [("success", JBool true);
                       ("filename", JStr "scan.pdf");
                       ("total_pages", JInt 3);
                       ("results", JList results)];
              status := 200 |} ∧
    results !! 1%nat = Some second ∧
    md_content second = Ok (JStr "Page 2").
Proof.
  destruct (three_page_document Examples.service Examples.runtime
              (Examples.upload "scan.pdf"
                 [Examples.page_1; Examples.page_2; Examples.page_3])
              Examples.idle 0%nat
              Examples.page_1 Examples.page_2 Examples.page_3)
    as (results & second & Hr & _ & _ & Hs & Hm).
  - vm_compute. reflexivity.
  - reflexivity.
  - vm_compute. reflexivity.
  - reflexivity.
  - repeat constructor.
  - apply example_answered_once. vm_compute. reflexivity.
  - apply example_answered_once. vm_compute. reflexivity.
  - apply example_answered_once. vm_compute. reflexivity.
  - exists results, second. split; [exact Hr|]. split; [exact Hs | exact Hm].
Defined.

(* ===================================================================== *)
(** * Properties: image normalisation                                     *)
(* ===================================================================== *)

(** C6, counterexample: a 1000 x 667 image normalised to 1280 comes out
    1280 x 853, the product 853.76 being truncated, where the rounded
    product the specification gives is 854. *)
Lemma short_side_is_truncated :
  ¬ rounds_both_sides (Scenarios.sized (667, 1000)) 1280.
Proof.
  unfold rounds_both_sides.
  replace (shape_of (resize_longest_side (Scenarios.sized (667, 1000)) 1280))
    with (Ok (A:=shape) (853, 1280)) by (vm_compute; reflexivity).
  replace (spec_normalize (Scenarios.sized (667, 1000)).2 1280)
    with (Ok (A:=shape) (854, 1280)) by (vm_compute; reflexivity).
  discriminate.
Qed.

(** C6 (amended): for every image with positive width and height and
    every target T > 0, all below 2^25 and with T * min (w, h) above
    max (w, h), normalisation computes scale = T / max (width, height) in
    double precision and asks OpenCV for an image whose side along the
    longer input side (the height on a tie) is exactly T and whose other
    side is the product short * scale truncated toward zero: at most the
    exact proportional length T * short / long and less than one pixel
    below it.  It returns the image of exactly that size whenever OpenCV
    produces one, and raises [cv2.error] when OpenCV cannot, as when the
    output cannot be allocated.  So the longest edge of every output is
    exactly T and its aspect ratio matches the input within one pixel of
    the shorter side. *)
Theorem normalized_size page h w T :
  0 < h < 2 ^ 25 → 0 < w < 2 ^ 25 → 0 < T < 2 ^ 25 →
  Z.max h w < T * Z.min h w →
  ∃ h' w',
    Z.max h' w' = T ∧
    (if h <? w
     then w' = T ∧ h' * w ≤ T * h ≤ (h' + 1) * w
     else h' = T ∧ w' * h ≤ T * w ≤ (w' + 1) * h) ∧
    resize_longest_side (page, (h, w)) T
      = if resizes page (h', w')
        then Ok (page, (h', w'))
        else Raise Cv2Error.
Proof.
  intros Hh Hw HT Hmin. unfold resize_longest_side. cbn [snd].
  destruct (Z.ltb_spec h w) as [Hlt|Hge].
  - destruct (scaled_side T w h HT Hw Hh)
      as (scale & scaled & r & Hdiv & Hmul & Hint & Hr).
    rewrite Hdiv. cbn [mbind result_bind].
    rewrite Hmul. cbn [mbind result_bind].
    rewrite Hint. cbn [mbind result_bind]. unfold cv2_resize. cbn [fst].
    assert (Hr0 : 0 < r) by nia.
    assert (HrT : r ≤ T) by nia.
    replace (0 <? T) with true by (symmetry; apply Z.ltb_lt; lia).
    replace (0 <? r) with true by (symmetry; apply Z.ltb_lt; lia).
    exists r, T. split; [lia|]. split; [|reflexivity].
    split; [reflexivity | lia].
  - destruct (scaled_side T h w HT Hh Hw)
      as (scale & scaled & r & Hdiv & Hmul & Hint & Hr).
    rewrite Hdiv. cbn [mbind result_bind].
    rewrite Hmul. cbn [mbind result_bind].
    rewrite Hint. cbn [mbind result_bind]. unfold cv2_resize. cbn [fst].
    assert (Hr0 : 0 < r) by nia.
    assert (HrT : r ≤ T) by nia.
    replace (0 <? T) with true by (symmetry; apply Z.ltb_lt; lia).
    replace (0 <? r) with true by (symmetry; apply Z.ltb_lt; lia).
    exists T, r. split; [lia|]. split; [|reflexivity].
    split; [reflexivity | lia].
Qed.

Lemma normalized_size_witness :
  ∃ h' w',
    Z.max h' w' = 1280 ∧
    (h' = 1280 ∧ w' * 1684 ≤ 1280 * 1191 ≤ (w' + 1) * 1684) ∧
    resize_longest_side (Scenarios.sized (1684, 1191)) 1280
      = Ok ((Scenarios.sized (1684, 1191)).1, (h', w')).
Proof.
  refine (normalized_size (Scenarios.sized (1684, 1191)).1 1684 1191 1280
            _ _ _ _);
    vm_compute; split; intros; discriminate || reflexivity.
Defined.

(* ===================================================================== *)
(** * Further properties: image normalisation                             *)
(* ===================================================================== *)

(** The sign given to the rounding step is the sign of its result and
    nothing else. *)
Lemma binary_round_aux_sign sx m e l :
  binary_round_aux 53 1024 sx m e l
    = match binary_round_aux 53 1024 false m e l with
      | S754_zero _ => S754_zero sx
      | S754_infinity _ => S754_infinity sx
      | S754_nan => S754_nan
      | S754_finite _ m' e' => S754_finite sx m' e'
      end.
Proof.
  unfold binary_round_aux.
  destruct (shr_fexp 53 1024 m e l) as [mrs' e'].
  destruct (shr_fexp 53 1024 _ e' loc_Exact) as [mrs'' e''].
  destruct (shr_m mrs''); try reflexivity.
  destruct (e'' <=? 1024 - 53); reflexivity.
Qed.

(** An int below [2 ^ 53] survives the trip through a float. *)
Lemma int_of_float_of_int c :
  0 < c < 2 ^ 53 →
  ∃ f, PyNum.float_of_int c = Ok f ∧ PyNum.int_of_float f = Ok c.
Proof.
  intros Hc. destruct (float_of_int_exact c Hc) as (mc & ec & Hf & Hmc & Hec & Hmc').
  exists (S754_finite false mc ec). split; [exact Hf|].
  unfold PyNum.int_of_float. destruct ec as [|p|p]; try lia.
  - rewrite Z.shiftl_0_r. f_equal. simpl in Hmc'. lia.
  - rewrite Z.shiftr_div_pow2 by lia. f_equal.
    change (- Z.neg p) with (Z.pos p) in Hmc'. rewrite Hmc'.
    apply Z.div_mul. pose proof (Z.pow_pos_nonneg 2 (Z.pos p)). lia.
Qed.

Lemma int_truediv_round a b :
  0 < a < 2 ^ 53 → 0 < b < 2 ^ 53 →
  PyNum.int_truediv a b
    = match binary_round_aux 53 1024 false
              (a * 2 ^ (53 + Zdigits2 b - Zdigits2 a) / b)
              (- (53 + Zdigits2 b - Zdigits2 a))
              (new_location b (a * 2 ^ (53 + Zdigits2 b - Zdigits2 a) mod b)) with
      | S754_infinity _ => Raise OverflowError
      | x => Ok x
      end.
Proof.
  intros Ha Hb.
  destruct (Zdigits2_bounds a ltac:(lia)) as (Hda0 & Hda).
  destruct (Zdigits2_bounds b ltac:(lia)) as (Hdb0 & Hdb).
  pose proof (Zdigits2_le a 53 Ha ltac:(lia)) as Hda53.
  pose proof (Zdigits2_le b 53 Hb ltac:(lia)) as Hdb53.
  set (d1 := Zdigits2 a) in *. set (d2 := Zdigits2 b) in *.
  set (s := 53 + d2 - d1).
  unfold PyNum.int_truediv, PyNum.prec, PyNum.emax.
  destruct (Z.eqb_spec b 0) as [|_]; [lia|].
  destruct (Z.eqb_spec a 0) as [|_]; [lia|].
  rewrite (Z.abs_eq a), (Z.abs_eq b) by lia.
  replace (a <? 0) with false by (symmetry; apply Z.ltb_ge; lia).
  replace (b <? 0) with false by (symmetry; apply Z.ltb_ge; lia).
  unfold SFdiv_core_binary. fold d1 d2.
  rewrite (fexp_normal (d1 + 0 - (d2 + 0))) by lia.
  replace (Z.min (d1 + 0 - (d2 + 0) - 53) (0 - 0)) with (- s) by lia.
  replace (0 - 0 - - s) with s by lia.
  assert (Hm' : match s with
                 | 0 => a
                 | Z.pos _ => Z.shiftl a s
                 | Z.neg _ => 0
                 end = a * 2 ^ s).
  { destruct s eqn:Hs; try lia. apply Z.shiftl_mul_pow2. lia. }
  rewrite Hm'. rewrite (div_eucl_div_mod (a * 2 ^ s) b).
  reflexivity.
Qed.

(** [T / T] is the float 1.0. *)
Lemma int_truediv_self T :
  0 < T < 2 ^ 53 →
  PyNum.int_truediv T T = Ok (S754_finite false (2 ^ 52) (-52)).
Proof.
  intros HT. rewrite int_truediv_round by assumption.
  replace (- (53 + Zdigits2 T - Zdigits2 T)) with (-53) by lia.
  replace (53 + Zdigits2 T - Zdigits2 T) with 53 by lia.
  destruct (binary_round_aux_div (T * 2 ^ 53) T (-53) 54)
    as (m' & e' & H1 & H2 & H3 & H4 & H5); try lia.
  { rewrite Z.mul_comm, Z.div_mul by lia. lia. }
  rewrite H1.
  destruct H5 as (Hm' & He').
  { replace (54 - 53) with 1 by lia.
    replace (T * 2 ^ 53) with (2 ^ 52 * (2 ^ 1 * T))
      by (change (2 ^ 53) with (2 ^ 52 * 2 ^ 1); ring).
    apply Z_mod_mult. }
  replace (54 - 53) with 1 in Hm' by lia.
  replace (T * 2 ^ 53) with (2 ^ 52 * (2 ^ 1 * T)) in Hm'
    by (change (2 ^ 53) with (2 ^ 52 * 2 ^ 1); ring).
  rewrite Z.div_mul in Hm' by lia.
  subst e'. do 2 f_equal. apply Pos2Z.inj. rewrite Hm'. reflexivity.
Qed.

(** Multiplying an int below [2 ^ 53] by 1.0 is converting it. *)
Lemma int_mul_float_one c :
  0 < c < 2 ^ 53 →
  PyNum.int_mul_float c (S754_finite false (2 ^ 52) (-52))
    = PyNum.float_of_int c.
Proof.
  intros Hc.
  destruct (float_of_int_exact c Hc) as (mc & ec & Hf & Hmc & Hec & Hmc').
  unfold PyNum.int_mul_float. rewrite Hf. cbn [mbind result_bind].
  unfold SFmul, PyNum.prec, PyNum.emax. change (xorb false false) with false.
  rewrite Pos2Z.inj_mul. change (Z.pos (2 ^ 52)) with (2 ^ 52).
  assert (HN : 2 ^ 104 ≤ Z.pos mc * 2 ^ 52 < 2 ^ 105).
  { change (2 ^ 104) with (2 ^ 52 * 2 ^ 52).
    change (2 ^ 105) with (2 ^ 53 * 2 ^ 52). lia. }
  destruct (binary_round_aux_div (Z.pos mc * 2 ^ 52) 1 (ec + -52) 105)
    as (m' & e' & H1 & H2 & H3 & H4 & H5); try lia.
  { rewrite Z.div_1_r. exact HN. }
  rewrite Z.div_1_r, <- loc_Exact_new_location in H1.
  rewrite H1.
  destruct H5 as (Hm' & He').
  { replace (2 ^ (105 - 53) * 1) with (2 ^ 52) by reflexivity.
    apply Z_mod_mult. }
  replace (2 ^ (105 - 53) * 1) with (2 ^ 52) in Hm' by reflexivity.
  rewrite Z.div_mul in Hm' by lia.
  do 2 f_equal; [apply Pos2Z.inj; exact Hm' | lia].
Qed.

(** An image whose longest side is already the target keeps its shape. *)
Lemma resize_fixed page h w :
  0 < h < 2 ^ 53 → 0 < w < 2 ^ 53 →
  resize_longest_side (page, (h, w)) (Z.max h w)
    = if resizes page (h, w) then Ok (page, (h, w)) else Raise Cv2Error.
Proof.
  intros Hh Hw. unfold resize_longest_side. cbn [snd].
  destruct (Z.ltb_spec h w) as [Hlt|Hge].
  - rewrite Z.max_r by lia. rewrite int_truediv_self by lia.
    cbn [mbind result_bind]. rewrite int_mul_float_one by lia.
    destruct (int_of_float_of_int h Hh) as (f & -> & Hi).
    cbn [mbind result_bind]. rewrite Hi. cbn [mbind result_bind].
    unfold cv2_resize. cbn [fst].
    replace (0 <? w) with true by (symmetry; apply Z.ltb_lt; lia).
    replace (0 <? h) with true by (symmetry; apply Z.ltb_lt; lia).
    reflexivity.
  - rewrite Z.max_l by lia. rewrite int_truediv_self by lia.
    cbn [mbind result_bind]. rewrite int_mul_float_one by lia.
    destruct (int_of_float_of_int w Hw) as (f & -> & Hi).
    cbn [mbind result_bind]. rewrite Hi. cbn [mbind result_bind].
    unfold cv2_resize. cbn [fst].
    replace (0 <? w) with true by (symmetry; apply Z.ltb_lt; lia).
    replace (0 <? h) with true by (symmetry; apply Z.ltb_lt; lia).
    reflexivity.
Qed.

Lemma int_truediv_neg a b m e :
  0 < a → 0 < b →
  PyNum.int_truediv a b = Ok (S754_finite false m e) →
  PyNum.int_truediv (- a) b = Ok (S754_finite true m e).
Proof.
  intros Ha Hb. unfold PyNum.int_truediv.
  destruct (Z.eqb_spec b 0) as [|_]; [lia|].
  destruct (Z.eqb_spec a 0) as [|_]; [lia|].
  destruct (Z.eqb_spec (- a) 0) as [|_]; [lia|].
  rewrite Z.abs_opp.
  replace (a <? 0) with false by (symmetry; apply Z.ltb_ge; lia).
  replace (- a <? 0) with true by (symmetry; apply Z.ltb_lt; lia).
  replace (b <? 0) with false by (symmetry; apply Z.ltb_ge; lia).
  cbn [xorb].
  destruct (SFdiv_core_binary PyNum.prec PyNum.emax (Z.abs a) 0 (Z.abs b) 0)
    as [[mz ez] lz].
  unfold PyNum.prec, PyNum.emax.
  rewrite (binary_round_aux_sign true).
  destruct (binary_round_aux 53 1024 false mz ez lz); try discriminate.
  intros [= -> -> ->]. reflexivity.
Qed.

Lemma int_mul_float_neg c m e mp ep :
  0 < c < 2 ^ 53 →
  PyNum.int_mul_float c (S754_finite false m e) = Ok (S754_finite false mp ep) →
  PyNum.int_mul_float c (S754_finite true m e) = Ok (S754_finite true mp ep).
Proof.
  intros Hc.
  destruct (float_of_int_exact c Hc) as (mc & ec & Hf & _).
  unfold PyNum.int_mul_float. rewrite Hf. cbn [mbind result_bind].
  unfold SFmul, PyNum.prec, PyNum.emax. cbn [xorb].
  rewrite (binary_round_aux_sign true).
  destruct (binary_round_aux 53 1024 false _ _ loc_Exact); try discriminate.
  intros [= -> -> ->]. reflexivity.
Qed.

(** X1: an image whose longer side already measures the target keeps its
    shape: the scale is exactly 1.0 and the product is exact, for every
    size a double represents exactly, so the size asked of OpenCV is the
    image's own, and the image comes back in that shape whenever OpenCV
    produces an output of it. *)
Theorem resize_at_target_keeps_shape page h w T :
  0 < h < 2 ^ 53 → 0 < w < 2 ^ 53 → Z.max h w = T →
  resize_longest_side (page, (h, w)) T
    = if resizes page (h, w) then Ok (page, (h, w)) else Raise Cv2Error.
Proof. intros Hh Hw <-. apply resize_fixed; assumption. Qed.

Lemma resize_at_target_keeps_shape_witness :
  resize_longest_side (Scenarios.sized (905, 1280)) 1280
    = Ok (Scenarios.sized (905, 1280)).
Proof.
  refine (resize_at_target_keeps_shape (Scenarios.sized (905, 1280)).1
            905 1280 1280 _ _ _); vm_compute;
    (reflexivity || (split; reflexivity)).
Defined.

(** X2: normalising twice is normalising once: whatever image a
    successful call returns, a second call with the same target returns
    it unchanged. *)
Theorem resize_idempotent page h w T resized :
  0 < h < 2 ^ 25 → 0 < w < 2 ^ 25 → 0 < T < 2 ^ 25 →
  resize_longest_side (page, (h, w)) T = Ok resized →
  resize_longest_side resized T = Ok resized.
Proof.
  intros Hh Hw HT H. unfold resize_longest_side in H. cbn [snd] in H.
  destruct (Z.ltb_spec h w) as [Hlt|Hge].
  - destruct (scaled_side T w h HT Hw Hh)
      as (scale & scaled & r & Hdiv & Hmul & Hint & Hr).
    rewrite Hdiv in H. cbn [mbind result_bind] in H.
    rewrite Hmul in H. cbn [mbind result_bind] in H.
    rewrite Hint in H. cbn [mbind result_bind] in H.
    unfold cv2_resize in H. cbn [fst] in H.
    destruct (Z.ltb_spec 0 T); [|lia].
    destruct (Z.ltb_spec 0 r) as [Hr0|]; [|discriminate H].
    cbn [andb] in H.
    destruct (resizes page (r, T)) eqn:Hres; [|discriminate H].
    inversion H; subst resized.
    assert (HrT : r ≤ T) by nia.
    pose proof (resize_fixed page r T ltac:(lia) ltac:(lia)) as Hfixed.
    rewrite Z.max_r in Hfixed by lia. rewrite Hfixed, Hres. reflexivity.
  - destruct (scaled_side T h w HT Hh Hw)
      as (scale & scaled & r & Hdiv & Hmul & Hint & Hr).
    rewrite Hdiv in H. cbn [mbind result_bind] in H.
    rewrite Hmul in H. cbn [mbind result_bind] in H.
    rewrite Hint in H. cbn [mbind result_bind] in H.
    unfold cv2_resize in H. cbn [fst] in H.
    destruct (Z.ltb_spec 0 r) as [Hr0|]; [|discriminate H].
    destruct (Z.ltb_spec 0 T); [|lia].
    cbn [andb] in H.
    destruct (resizes page (T, r)) eqn:Hres; [|discriminate H].
    inversion H; subst resized.
    assert (HrT : r ≤ T) by nia.
    pose proof (resize_fixed page T r ltac:(lia) ltac:(lia)) as Hfixed.
    rewrite Z.max_l in Hfixed by lia. rewrite Hfixed, Hres. reflexivity.
Qed.

Lemma resize_idempotent_witness :
  resize_longest_side (Scenarios.sized (1280, 905)) 1280
    = Ok (Scenarios.sized (1280, 905)).
Proof.
  refine (resize_idempotent (Scenarios.sized (1280, 905)).1 1684 1191 1280
            (Scenarios.sized (1280, 905)) _ _ _ _); vm_compute;
    (reflexivity || (split; reflexivity)).
Defined.

(** X3: when the image is so elongated that the shorter side scales to
    less than one pixel, the computed size has a zero side and OpenCV
    rejects it: the call raises instead of returning an image. *)
Theorem resize_collapsed_side_raises page h w T :
  0 < h < 2 ^ 25 → 0 < w < 2 ^ 25 → 0 < T < 2 ^ 25 →
  T * Z.min h w < Z.max h w →
  resize_longest_side (page, (h, w)) T = Raise Cv2Error.
Proof.
  intros Hh Hw HT Hthin. unfold resize_longest_side. cbn [snd].
  destruct (Z.ltb_spec h w) as [Hlt|Hge].
  - destruct (scaled_side T w h HT Hw Hh)
      as (scale & scaled & r & Hdiv & Hmul & Hint & Hr).
    rewrite Hdiv. cbn [mbind result_bind].
    rewrite Hmul. cbn [mbind result_bind].
    rewrite Hint. cbn [mbind result_bind]. unfold cv2_resize.
    assert (r ≤ 0) by nia.
    replace (0 <? r) with false by (symmetry; apply Z.ltb_ge; lia).
    rewrite andb_false_r. reflexivity.
  - destruct (scaled_side T h w HT Hh Hw)
      as (scale & scaled & r & Hdiv & Hmul & Hint & Hr).
    rewrite Hdiv. cbn [mbind result_bind].
    rewrite Hmul. cbn [mbind result_bind].
    rewrite Hint. cbn [mbind result_bind]. unfold cv2_resize.
    assert (r ≤ 0) by nia.
    replace (0 <? r) with false by (symmetry; apply Z.ltb_ge; lia).
    reflexivity.
Qed.

Lemma resize_collapsed_side_raises_witness :
  resize_longest_side (Scenarios.sized (1, 2000)) 1280 = Raise Cv2Error.
Proof.
  apply (resize_collapsed_side_raises (Scenarios.sized (1, 2000)).1
           1 2000 1280); vm_compute;
    (reflexivity || (split; reflexivity)).
Defined.

Lemma scaled_side_zero b c :
  0 < b → 0 < c < 2 ^ 53 →
  ∃ scale scaled,
    PyNum.int_truediv 0 b = Ok scale ∧
    PyNum.int_mul_float c scale = Ok scaled ∧
    PyNum.int_of_float scaled = Ok 0.
Proof.
  intros Hb Hc.
  destruct (float_of_int_exact c Hc) as (mc & ec & Hf & _).
  exists (S754_zero false), (S754_zero false).
  split; [|split; [|reflexivity]].
  - unfold PyNum.int_truediv.
    destruct (Z.eqb_spec b 0) as [|_]; [lia|]. simpl.
    replace (b <? 0) with false by (symmetry; apply Z.ltb_ge; lia).
    reflexivity.
  - unfold PyNum.int_mul_float. rewrite Hf. reflexivity.
Qed.

Lemma scaled_side_neg a b c :
  0 < a < 2 ^ 25 → 0 < b < 2 ^ 25 → 0 < c < 2 ^ 25 →
  ∃ scale scaled r,
    PyNum.int_truediv (- a) b = Ok scale ∧
    PyNum.int_mul_float c scale = Ok scaled ∧
    PyNum.int_of_float scaled = Ok r.
Proof.
  intros Ha Hb Hc.
  destruct (int_truediv_bounds a b) as (mq & eq & s & k1 & Hdiv & Hmq & _ & _ & _ & Heq & _);
    try lia.
  destruct (int_mul_float_bounds c mq eq) as (mc & ec & mp & ep & k2 & _ & _ & Hmul & _);
    try lia.
  exists (S754_finite true mq eq), (S754_finite true mp ep).
  eexists. split; [apply int_truediv_neg; [lia | lia | exact Hdiv]|].
  split; [apply int_mul_float_neg; [lia | exact Hmul]|].
  reflexivity.
Qed.

(** X4: a target of zero or less is not rejected by the function itself;
    the arithmetic goes through and the call fails only in OpenCV, on the
    empty or negative size. *)
Theorem resize_nonpositive_target_raises page h w T :
  0 < h < 2 ^ 25 → 0 < w < 2 ^ 25 → - 2 ^ 25 < T ≤ 0 →
  resize_longest_side (page, (h, w)) T = Raise Cv2Error.
Proof.
  intros Hh Hw HT. unfold resize_longest_side. cbn [snd].
  assert (Hside : ∀ b c, 0 < b < 2 ^ 25 → 0 < c < 2 ^ 25 →
            ∃ scale scaled r,
              PyNum.int_truediv T b = Ok scale ∧
              PyNum.int_mul_float c scale = Ok scaled ∧
              PyNum.int_of_float scaled = Ok r).
  { intros b c Hb Hc. destruct (Z.eq_dec T 0) as [->|Hne].
    - destruct (scaled_side_zero b c) as (scale & scaled & H); try lia.
      exists scale, scaled, 0. exact H.
    - replace T with (- - T) by lia. apply scaled_side_neg; lia. }
  replace (0 <? T) with false by (symmetry; apply Z.ltb_ge; lia).
  destruct (Z.ltb_spec h w) as [Hlt|Hge].
  - destruct (Hside w h Hw Hh) as (scale & scaled & r & Hdiv & Hmul & Hint).
    rewrite Hdiv. cbn [mbind result_bind].
    rewrite Hmul. cbn [mbind result_bind].
    rewrite Hint. cbn [mbind result_bind]. unfold cv2_resize.
    replace (0 <? T) with false by (symmetry; apply Z.ltb_ge; lia).
    reflexivity.
  - destruct (Hside h w Hh Hw) as (scale & scaled & r & Hdiv & Hmul & Hint).
    rewrite Hdiv. cbn [mbind result_bind].
    rewrite Hmul. cbn [mbind result_bind].
    rewrite Hint. cbn [mbind result_bind]. unfold cv2_resize.
    replace (0 <? T) with false by (symmetry; apply Z.ltb_ge; lia).
    rewrite andb_false_r. reflexivity.
Qed.

Lemma resize_nonpositive_target_raises_witness :
  resize_longest_side (Scenarios.sized (1684, 1191)) 0 = Raise Cv2Error.
Proof.
  apply (resize_nonpositive_target_raises (Scenarios.sized (1684, 1191)).1
           1684 1191 0); vm_compute;
    split; (reflexivity || (intros; discriminate)).
Defined.

(* ===================================================================== *)
(** * Further properties: the texts of an answer                          *)
(* ===================================================================== *)

Lemma page_key_inj i j : page_key i = page_key j → i = j.
Proof.
  unfold page_key. intros H.
  apply (inj (String.app "page")) in H.
  apply (inj pretty) in H. lia.
Qed.

(** Setting a key the dict does not hold appends it. *)
Lemma dict_set_fresh k v (d : dict) :
  k ∉ d.*1 → dict_set k v d = d ++ [(k, v)].
Proof.
  induction d as [|[k' v'] d IH]; simpl; intros Hk; [reflexivity|].
  destruct (String.eqb_spec k k') as [->|Hne].
  - exfalso. apply Hk. left.
  - rewrite IH; [reflexivity|]. intros Hin. apply Hk. right. exact Hin.
Qed.

(** Entries that each hold a text are extracted in order, each under
    the next key. *)
Lemma extract_loop_texts items : ∀ texts i acc,
  Forall2 (fun item text => text_of item = Ok text) items texts →
  (∀ k, k ∈ acc.*1 → ∃ j, (j < i)%nat ∧ k = page_key j) →
  extract_loop i items acc = Ok (acc ++ keyed_from i texts).
Proof.
  induction items as [|item rest IH]; intros texts i acc H Hacc;
    inversion H as [|? text ? texts' Htext Hrest]; subst; simpl.
  - rewrite app_nil_r. reflexivity.
  - unfold text_of in Htext.
    destruct (getitem item "markdown") as [md|]; [|discriminate Htext].
    cbn [mbind result_bind] in *. rewrite Htext. cbn [mbind result_bind].
    rewrite dict_set_fresh.
    + rewrite (IH texts' (S i) _ Hrest).
      * rewrite <- app_assoc. reflexivity.
      * intros k Hk. rewrite fmap_app in Hk. apply elem_of_app in Hk as [Hk|Hk].
        -- destruct (Hacc k Hk) as (j & Hj & ->). exists j. split; [lia|reflexivity].
        -- apply list_elem_of_singleton in Hk. exists i. split; [lia|exact Hk].
    + intros Hin. destruct (Hacc _ Hin) as (j & Hj & Heq).
      apply page_key_inj in Heq. lia.
Qed.

Lemma extract_loop_Ok items : ∀ i acc d,
  (∀ k, k ∈ acc.*1 → ∃ j, (j < i)%nat ∧ k = page_key j) →
  extract_loop i items acc = Ok d →
  ∃ texts, Forall2 (fun item text => text_of item = Ok text) items texts ∧
           d = acc ++ keyed_from i texts.
Proof.
  induction items as [|item rest IH]; simpl; intros i acc d Hacc H.
  - inversion H; subst. exists []. rewrite app_nil_r. split; [constructor | reflexivity].
  - apply bind_Ok in H. destruct H as (md & Hm & H).
    apply bind_Ok in H. destruct H as (text & Ht & H).
    rewrite dict_set_fresh in H.
    2:{ intros Hin. destruct (Hacc _ Hin) as (j & Hj & Heq).
        apply page_key_inj in Heq. lia. }
    apply IH in H.
    + destruct H as (texts & Hall & ->). exists (text :: texts).
      split.
      * constructor; [|exact Hall]. unfold text_of. rewrite Hm. exact Ht.
      * rewrite <- app_assoc. reflexivity.
    + intros k Hk. rewrite fmap_app in Hk. apply elem_of_app in Hk as [Hk|Hk].
      * destruct (Hacc k Hk) as (j & Hj & ->). exists j. split; [lia|reflexivity].
      * apply list_elem_of_singleton in Hk. exists i. split; [lia|exact Hk].
Qed.

Lemma extract_loop_raises good : ∀ bad rest e i acc texts,
  Forall2 (fun item text => text_of item = Ok text) good texts →
  text_of bad = Raise e →
  extract_loop i (good ++ bad :: rest) acc = Raise e.
Proof.
  induction good as [|item good IH]; intros bad rest e i acc texts Hgood Hbad;
    inversion Hgood as [|? text ? texts' Ht Hrest]; subst; simpl.
  - unfold text_of in Hbad.
    destruct (getitem bad "markdown") as [md|e']; simpl in *;
      [rewrite Hbad; reflexivity | inversion Hbad; reflexivity].
  - unfold text_of in Ht.
    destruct (getitem item "markdown") as [md|e']; simpl in *; [|discriminate Ht].
    rewrite Ht. simpl. eapply IH; eassumption.
Qed.

(** X5: when [layoutParsingResults] is a list, the extraction succeeds
    exactly when every entry holds a text under [markdown], [text]; the
    dict then has one key per entry, [page1], [page2], ... in the order
    of the entries, each with the text of its entry, and no key
    overwrites another. *)
Theorem extract_markdown_one_key_per_entry result_ items d :
  getitem result_ "layoutParsingResults" = Ok (JList items) →
  (extract_markdown_from_result result_ = Ok d ↔
   ∃ texts, Forall2 (fun item text => text_of item = Ok text) items texts ∧
            d = keyed_from 0 texts).
Proof.
  intros Hres. unfold extract_markdown_from_result. rewrite Hres. simpl. split.
  - intros H. apply extract_loop_Ok in H.
    + exact H.
    + intros k Hk. inversion Hk.
  - intros (texts & Hall & ->).
    apply (extract_loop_texts items texts 0 [] Hall).
    intros k Hk. inversion Hk.
Qed.

Lemma extract_markdown_one_key_per_entry_witness :
  extract_markdown_from_result
    (JDict [("layoutParsingResults",
             JList [JDict [("markdown", JDict [("text", JStr "a")])];
                    JDict [("markdown", JDict [("text", JStr "b")])]])])
    = Ok [("page1", JStr "a"); ("page2", JStr "b")].
Proof.
  apply (extract_markdown_one_key_per_entry
           (JDict [("layoutParsingResults",
                    JList [JDict [("markdown", JDict [("text", JStr "a")])];
                           JDict [("markdown", JDict [("text", JStr "b")])]])])
           [JDict [("markdown", JDict [("text", JStr "a")])];
            JDict [("markdown", JDict [("text", JStr "b")])]]
           [("page1", JStr "a"); ("page2", JStr "b")] eq_refl).
  exists [JStr "a"; JStr "b"]. split; [|reflexivity].
  repeat constructor.
Defined.

(** X6: the first entry without a text decides the outcome: the
    extraction raises what reading that entry raises, whatever entries
    follow, and returns nothing of the texts before it. *)
Theorem extract_markdown_first_bad_entry result_ good bad rest texts e :
  getitem result_ "layoutParsingResults" = Ok (JList (good ++ bad :: rest)) →
  Forall2 (fun item text => text_of item = Ok text) good texts →
  text_of bad = Raise e →
  extract_markdown_from_result result_ = Raise e.
Proof.
  intros Hres Hgood Hbad. unfold extract_markdown_from_result.
  rewrite Hres. simpl. eapply extract_loop_raises; eassumption.
Qed.

Lemma extract_markdown_first_bad_entry_witness :
  extract_markdown_from_result
    (JDict [("layoutParsingResults",
             JList [JDict [("markdown", JDict [("text", JStr "a")])];
                    JDict [("markdown", JDict [("images", JDict [])])];
                    JNull])])
    = Raise (KeyError "text").
Proof.
  apply (extract_markdown_first_bad_entry
           (JDict [("layoutParsingResults",
             JList [JDict [("markdown", JDict [("text", JStr "a")])];
                    JDict [("markdown", JDict [("images", JDict [])])];
                    JNull])])
           [JDict [("markdown", JDict [("text", JStr "a")])]]
           (JDict [("markdown", JDict [("images", JDict [])])])
           [JNull] [JStr "a"] (KeyError "text") eq_refl).
  - repeat constructor.
  - reflexivity.
Defined.

(* ===================================================================== *)
(** * Further properties: rendering the pages                             *)
(* ===================================================================== *)

Lemma save_pages_above pages : ∀ i dir paths dir' r k,
  save_pages i pages dir paths = (dir', r) →
  (i + length pages < k)%nat →
  dir' !! k = dir !! k.
Proof.
  induction pages as [|page rest IH]; intros i dir paths dir' r k Hs Hk;
    simpl in Hs.
  - inversion Hs; subst. reflexivity.
  - simpl in Hk. destruct (renders page).
    + rewrite (IH _ _ _ _ _ k Hs) by lia.
      apply lookup_insert_ne. lia.
    + inversion Hs; subst. reflexivity.
Qed.

Lemma save_pages_fails before : ∀ bad after i dir paths,
  Forall (fun page => renders page = true) before →
  renders bad = false →
  ∃ dir',
    save_pages i (before ++ bad :: after) dir paths = (dir', Raise RenderError) ∧
    (∀ j page, before !! j = Some page → dir' !! (S i + j)%nat = Some page) ∧
    (∀ k, (k ≤ i ∨ i + length before < k)%nat → dir' !! k = dir !! k).
Proof.
  induction before as [|page before IH]; intros bad after i dir paths Hall Hbad; simpl.
  - rewrite Hbad. exists dir. split; [reflexivity|]. split; [|reflexivity].
    intros j page Hj. rewrite lookup_nil in Hj. discriminate.
  - inversion Hall as [|? ? Hr Hrest]; subst. rewrite Hr.
    destruct (IH bad after (S i) (<[S i := page]> dir) (paths ++ [S i]) Hrest Hbad)
      as (dir' & Heq & Hlook & Hout).
    exists dir'. split; [exact Heq|]. split.
    + intros [|j] pg Hj; simpl in Hj.
      * inversion Hj; subst pg. rewrite Nat.add_0_r.
        rewrite Hout by lia. apply lookup_insert_eq.
      * specialize (Hlook j pg Hj).
        replace (S (S i) + j)%nat with (S i + S j)%nat in Hlook by lia.
        exact Hlook.
    + intros k Hk. rewrite Hout by lia. apply lookup_insert_ne. lia.
Qed.

Lemma first_unrendered pages :
  Forall (fun page => renders page = true) pages ∨
  ∃ before bad after,
    pages = before ++ bad :: after ∧
    Forall (fun page => renders page = true) before ∧ renders bad = false.
Proof.
  induction pages as [|page rest [IH|(before & bad & after & -> & Hb & Hbad)]].
  - left. constructor.
  - destruct (renders page) eqn:Hr.
    + left. constructor; assumption.
    + right. exists [], page, rest. repeat split; [constructor | exact Hr].
  - destruct (renders page) eqn:Hr.
    + right. exists (page :: before), bad, after.
      repeat split; [constructor; assumption | exact Hbad].
    + right. exists [], page, (before ++ bad :: after).
      repeat split; [constructor | exact Hr].
Qed.

(** X7: when the PDF is found and every page renders, [pdf_to_images]
    returns the paths of pages 1 to N in order, each path holds the image
    of its page afterwards, also where an older file of that name was in
    the directory, files under other names stay as they were, and
    nothing outside the directory changes. *)
Theorem pdf_to_images_saves_every_page pdf_input fs0 pages :
  tmp fs0 !! pdf_input = Some (Document pages) →
  Forall (fun page => renders page = true) pages →
  ∃ dir,
    pdf_to_images pdf_input fs0
      = ({| temp_pdf_images := Some dir; tmp := tmp fs0 |},
         Ok (seq 1 (length pages))) ∧
    (∀ j page, pages !! j = Some page → dir !! S j = Some page) ∧
    (∀ k, (k = 0 ∨ length pages < k)%nat →
          dir !! k = default ∅ (temp_pdf_images fs0) !! k).
Proof.
  intros Hfile Hall. unfold pdf_to_images. rewrite Hfile.
  destruct (save_pages_rendered pages 0 (default ∅ (temp_pdf_images fs0)) [] Hall)
    as (dir & Hsave & Hlook).
  rewrite Hsave. exists dir. split; [reflexivity|]. split.
  - intros j page Hj. apply (Hlook j page Hj).
  - intros k [->|Hk].
    + apply (save_pages_below _ _ _ _ _ _ 0%nat Hsave). lia.
    + apply (save_pages_above _ _ _ _ _ _ k Hsave). simpl. lia.
Qed.

Lemma pdf_to_images_saves_every_page_witness :
  ∃ dir,
    pdf_to_images Examples.path
      (Scenarios.stale_fs [Examples.page_1; Examples.page_2])
      = ({| temp_pdf_images := Some dir;
            tmp := {[ Examples.path := Document [Examples.page_1; Examples.page_2] ]} |},
         Ok [1; 2]%nat) ∧
    (∀ j page, [Examples.page_1; Examples.page_2] !! j = Some page →
               dir !! S j = Some page) ∧
    (∀ k, (k = 0 ∨ 2 < k)%nat →
          dir !! k
          = ({[ 1%nat := Examples.page_3; 7%nat := Examples.page_3 ]}
               : gmap nat PageImage) !! k).
Proof.
  refine (pdf_to_images_saves_every_page Examples.path
            (Scenarios.stale_fs [Examples.page_1; Examples.page_2])
            [Examples.page_1; Examples.page_2] _ _).
  - vm_compute. reflexivity.
  - repeat constructor.
Defined.

(** X8: when [pdf_to_images] raises, the directory exists all the same,
    since it is created before the PDF is opened.  A missing file gives
    [FileNotFoundError] and bytes [fitz.open] rejects [FileDataError],
    both with the directory as it was; otherwise some page failed to
    render, and the images of the pages before it have been written. *)
Theorem pdf_to_images_failure pdf_input fs0 e :
  (pdf_to_images pdf_input fs0).2 = Raise e →
  ∃ dir,
    (pdf_to_images pdf_input fs0).1
      = {| temp_pdf_images := Some dir; tmp := tmp fs0 |} ∧
    match tmp fs0 !! pdf_input with
    | None => e = FileNotFoundError ∧ dir = default ∅ (temp_pdf_images fs0)
    | Some Unopenable => e = FileDataError ∧ dir = default ∅ (temp_pdf_images fs0)
    | Some (Document pages) =>
        e = RenderError ∧
        ∃ before bad after,
          pages = before ++ bad :: after ∧
          Forall (fun page => renders page = true) before ∧
          renders bad = false ∧
          (∀ j page, before !! j = Some page → dir !! S j = Some page) ∧
          (∀ k, (k = 0 ∨ length before < k)%nat →
                dir !! k = default ∅ (temp_pdf_images fs0) !! k)
    end.
Proof.
  unfold pdf_to_images.
  destruct (tmp fs0 !! pdf_input) as [[|pages]|] eqn:Hfile; simpl.
  - intros [= <-]. eexists. split; [reflexivity|]. split; reflexivity.
  - destruct (first_unrendered pages) as [Hall|(before & bad & after & -> & Hb & Hbad)].
    + destruct (save_pages_rendered pages 0 (default ∅ (temp_pdf_images fs0)) [] Hall)
        as (dir & Hsave & _).
      rewrite Hsave. simpl. discriminate.
    + destruct (save_pages_fails before bad after 0 (default ∅ (temp_pdf_images fs0)) [] Hb Hbad)
        as (dir & Hsave & Hlook & Hout).
      rewrite Hsave. simpl. intros [= <-]. exists dir.
      split; [reflexivity|]. split; [reflexivity|].
      exists before, bad, after.
      split; [reflexivity|]. split; [exact Hb|]. split; [exact Hbad|]. split.
      * intros j page Hj. apply (Hlook j page Hj).
      * intros k Hk. apply Hout. lia.
  - intros [= <-]. eexists. split; [reflexivity|]. split; reflexivity.
Qed.

Lemma pdf_to_images_failure_witness :
  ∃ dir,
    (pdf_to_images "missing.pdf" Examples.empty_fs).1
      = {| temp_pdf_images := Some dir; tmp := ∅ |} ∧
    FileNotFoundError = FileNotFoundError ∧ dir = ∅.
Proof.
  apply (pdf_to_images_failure "missing.pdf" Examples.empty_fs FileNotFoundError).
  reflexivity.
Defined.

(* ===================================================================== *)
(** * Further properties: one run of the pipeline                         *)
(* ===================================================================== *)

Section Frame.
Variables s1 s2 : string → json → result HttpResponse.
Variables (api_url : string) (T : Z).
Hypothesis agree : ∀ image_data,
  s1 api_url (create_layout_parsing_payload image_data 1)
    = s2 api_url (create_layout_parsing_payload image_data 1).

Lemma process_image_agree fs0 i p :
  process_image s1 api_url T fs0 i p = process_image s2 api_url T fs0 i p.
Proof.
  unfold process_image. destruct (cv2_imread fs0 p) as [image|]; [|reflexivity].
  destruct (resize_longest_side image T) as [[page sh]|]; simpl; [|reflexivity].
  destruct (imencode page sh) as [data|]; simpl; [|reflexivity].
  unfold call_layout_parsing_api. rewrite agree. reflexivity.
Qed.

Lemma pages_loop_agree fs0 paths : ∀ i acc,
  pages_loop s1 api_url T fs0 i paths acc = pages_loop s2 api_url T fs0 i paths acc.
Proof.
  induction paths as [|p rest IH]; intros i acc; simpl; [reflexivity|].
  rewrite process_image_agree.
  destruct (process_image s2 api_url T fs0 i p); simpl; [apply IH | reflexivity].
Qed.

End Frame.

(** X9: a run consults the service at [api_url] only, and only with
    payloads made of an encoded image and the file type 1: two services
    that agree on those requests give the same run, result and file
    system alike. *)
Theorem service_sees_only_page_payloads s1 s2 pdf_input api_url T fs0 :
  (∀ image_data,
     s1 api_url (create_layout_parsing_payload image_data 1)
       = s2 api_url (create_layout_parsing_payload image_data 1)) →
  process_pdf_file s1 pdf_input api_url T fs0
    = process_pdf_file s2 pdf_input api_url T fs0.
Proof.
  intros Hagree. unfold process_pdf_file.
  destruct (pdf_to_images pdf_input fs0) as [fs1 [paths|e]]; [|reflexivity].
  simpl. rewrite (pages_loop_agree s1 s2 api_url T Hagree). reflexivity.
Qed.

Lemma service_sees_only_page_payloads_witness :
  process_pdf_file Examples.service Examples.path Examples.url 1280
    (Examples.uploaded [Examples.page_1; Examples.page_2])
  = process_pdf_file Scenarios.single_address Examples.path Examples.url 1280
      (Examples.uploaded [Examples.page_1; Examples.page_2]).
Proof.
  apply (service_sees_only_page_payloads Examples.service Scenarios.single_address).
  intros image_data. reflexivity.
Defined.

(** X10: page images left in the directory by an earlier run play no
    part: with or without them, with or without the directory, the run
    returns the same result and leaves the same file system. *)
Theorem stale_images_never_used service pdf_input api_url T fs0 stale :
  process_pdf_file service pdf_input api_url T (set_temp_pdf_images stale fs0)
    = process_pdf_file service pdf_input api_url T (set_temp_pdf_images None fs0).
Proof.
  apply injective_projections.
  - rewrite !process_pdf_file_fs. reflexivity.
  - destruct (tmp fs0 !! pdf_input) as [[|pages]|] eqn:Hfile;
      try (unfold process_pdf_file, pdf_to_images; simpl; rewrite Hfile; reflexivity).
    destruct (first_unrendered pages) as [Hall|(before & bad & after & -> & Hb & Hbad)].
    + rewrite !(process_pdf_file_rendered _ _ _ _ _ pages) by assumption.
      reflexivity.
    + unfold process_pdf_file, pdf_to_images. simpl. rewrite Hfile.
      destruct (save_pages_fails before bad after 0 (default ∅ stale) [] Hb Hbad)
        as (d1 & -> & _).
      destruct (save_pages_fails before bad after 0 ∅ [] Hb Hbad)
        as (d2 & H2 & _).
      simpl in H2. rewrite H2. reflexivity.
Qed.

Lemma ascending_pages_weaken l : ∀ lo lo' hi,
  lo' ≤ lo → ascending_pages lo hi l → ascending_pages lo' hi l.
Proof.
  destruct l as [|e l]; simpl; intros lo lo' hi Hlo H; [exact I|].
  destruct H as (n & c & He & Hn & Hl). exists n, c. repeat split; try lia; assumption.
Qed.

Lemma ascending_pages_app g : ∀ n lo hi rest,
  Forall (fun e => ∃ content, e = page_json n content) g →
  lo ≤ n ≤ hi →
  ascending_pages n hi rest →
  ascending_pages lo hi (g ++ rest).
Proof.
  induction g as [|e g IH]; simpl; intros n lo hi rest Hg Hn Hrest.
  - apply (ascending_pages_weaken rest n lo hi); [lia | exact Hrest].
  - inversion Hg as [|? ? (c & ->) Hg']; subst.
    exists n, c. split; [reflexivity|]. split; [lia|].
    apply (IH n n hi rest Hg'); [lia | exact Hrest].
Qed.

Section Numbering.
Variable service : string → json → result HttpResponse.
Variables (api_url : string) (T : Z).

Lemma page_entries_numbered i page entries :
  page_entries service api_url T i page = Ok entries →
  Forall (fun e => ∃ content, e = page_json (Z.of_nat i + 1) content) entries.
Proof.
  unfold page_entries. destruct (imread page) as [sh|].
  2:{ intros H; inversion H; constructor. }
  intros H.
  do 4 (apply bind_Ok in H; destruct H as (? & _ & H)).
  apply bind_Ok in H. destruct H as (page_markdowns & _ & H).
  apply bind_Ok in H. destruct H as ([] & _ & H).
  inversion H; subst entries. clear H.
  induction page_markdowns as [|kv rest IH]; simpl; constructor; [|exact IH].
  exists kv.2. reflexivity.
Qed.

Lemma collect_ascending pages : ∀ i acc all_markdowns,
  collect service api_url T i pages acc = Ok all_markdowns →
  ∃ new,
    all_markdowns = acc ++ new ∧
    ascending_pages (Z.of_nat i + 1) (Z.of_nat (i + length pages)) new.
Proof.
  induction pages as [|page rest IH]; simpl; intros i acc all H.
  - inversion H; subst. exists []. rewrite app_nil_r. split; [reflexivity | exact I].
  - apply bind_Ok in H. destruct H as (entries & He & H).
    destruct (IH _ _ _ H) as (new & -> & Hnew).
    exists (entries ++ new). rewrite app_assoc. split; [reflexivity|].
    apply (ascending_pages_app entries (Z.of_nat i + 1)).
    + eapply page_entries_numbered, He.
    + lia.
    + replace (i + S (length rest))%nat with (S i + length rest)%nat by lia.
      apply (ascending_pages_weaken new (Z.of_nat (S i) + 1)); [lia | exact Hnew].
Qed.
End Numbering.

(** X11: whenever a run returns, the text it returns is a list of page
    objects of the fixed shape whose page numbers never decrease along
    the list and all lie between 1 and the number of pages of the PDF;
    the text of each has a length and a [count] method. *)
Theorem records_ascend_within_page_range service pdf_input api_url T fs0 text :
  (process_pdf_file service pdf_input api_url T fs0).2 = Ok text →
  ∃ pages records,
    tmp fs0 !! pdf_input = Some (Document pages) ∧
    text = json_dumps (JList records) ∧
    ascending_pages 1 (Z.of_nat (length pages)) records ∧
    Forall entry_ok records.
Proof.
  intros H. apply process_pdf_file_Ok in H as (pages & records & Hfile & Hc & ->).
  exists pages, records. split; [exact Hfile|]. split; [reflexivity|]. split.
  - apply collect_ascending in Hc as (new & -> & Hasc). exact Hasc.
  - eapply collect_ok; [exact Hc | constructor].
Qed.

Lemma records_ascend_within_page_range_witness :
  ∃ pages records,
    tmp (Examples.uploaded [Examples.page_1; Examples.unreadable; Examples.page_3])
      !! Examples.path = Some (Document pages) ∧
    Dumped (JList [page_json 1 (JStr "Page 1"); page_json 3 (JStr "Page 3")])
      = json_dumps (JList records) ∧
    ascending_pages 1 (Z.of_nat (length pages)) records ∧
    Forall entry_ok records.
Proof.
  apply (records_ascend_within_page_range Examples.service Examples.path
           Examples.url 1280
           (Examples.uploaded [Examples.page_1; Examples.unreadable; Examples.page_3])).
  vm_compute. reflexivity.
Defined.

(** X12: the first page whose processing raises decides the run,
    whatever it raises (an image too elongated to resize, a failed
    encoding, an unreachable service, a malformed answer):
    [process_pdf_file] raises the same exception, returns no record of
    the pages already processed, and has removed the image directory. *)
Theorem first_failing_page_decides
    service pdf_input api_url T fs0 before page after e :
  tmp fs0 !! pdf_input = Some (Document (before ++ page :: after)) →
  Forall (fun p => renders p = true) (before ++ page :: after) →
  (∀ j p, before !! j = Some p →
          is_Ok (page_entries service api_url T j p) = true) →
  page_entries service api_url T (length before) page = Raise e →
  process_pdf_file service pdf_input api_url T fs0
    = (set_temp_pdf_images None fs0, Raise e).
Proof.
  intros Hfile Hrender Hbefore Hfail.
  rewrite (process_pdf_file_rendered _ _ _ _ _ _ Hfile Hrender).
  rewrite (collect_raises service api_url T before page after e 0 []).
  - reflexivity.
  - exact Hbefore.
  - exact Hfail.
Qed.

Lemma first_failing_page_decides_witness :
  process_pdf_file Examples.service Examples.path Examples.url 1280
    (Examples.uploaded [Examples.page_1; Scenarios.thin_page; Examples.page_3])
  = (set_temp_pdf_images None
       (Examples.uploaded
          [Examples.page_1; Scenarios.thin_page; Examples.page_3]),
     Raise Cv2Error).
Proof.
  apply (first_failing_page_decides Examples.service Examples.path
           Examples.url 1280
           (Examples.uploaded
              [Examples.page_1; Scenarios.thin_page; Examples.page_3])
           [Examples.page_1] Scenarios.thin_page [Examples.page_3] Cv2Error).
  - reflexivity.
  - repeat constructor.
  - intros [|j] p Hj; [|destruct j; discriminate Hj].
    inversion Hj; subst p. vm_compute. reflexivity.
  - vm_compute. reflexivity.
Defined.

(* ===================================================================== *)
(** * Further properties: the answers of the handler                      *)
(* ===================================================================== *)

Lemma raises_Exception_Ok {A} (a : A) : raises_Exception (Ok a).
Proof. intros e H. discriminate H. Qed.

Lemma raises_Exception_bind {A B} (m : result A) (f : A → result B) :
  raises_Exception m → (∀ a, m = Ok a → raises_Exception (f a)) →
  raises_Exception (m ≫= f).
Proof.
  intros Hm Hf. destruct m as [a|e]; simpl.
  - apply Hf. reflexivity.
  - intros e' [= <-]. apply Hm. reflexivity.
Qed.

Lemma raises_Exception_Raise {A} e :
  is_Exception e = true → raises_Exception (@Raise A e).
Proof. intros H e' [= <-]. exact H. Qed.

Lemma int_truediv_Exception a b : raises_Exception (PyNum.int_truediv a b).
Proof.
  unfold PyNum.int_truediv.
  destruct (b =? 0); [apply raises_Exception_Raise; reflexivity|].
  destruct (a =? 0); [apply raises_Exception_Ok|].
  destruct (SFdiv_core_binary _ _ _ _ _ _) as [[mz ez] lz].
  destruct (binary_round_aux _ _ _ _ _ _);
    (apply raises_Exception_Ok || (apply raises_Exception_Raise; reflexivity)).
Qed.

Lemma int_mul_float_Exception n x : raises_Exception (PyNum.int_mul_float n x).
Proof.
  unfold PyNum.int_mul_float, PyNum.float_of_int.
  destruct (binary_normalize _ _ _ _ _); simpl;
    (apply raises_Exception_Ok || (apply raises_Exception_Raise; reflexivity)).
Qed.

Lemma int_of_float_Exception x : raises_Exception (PyNum.int_of_float x).
Proof.
  destruct x; simpl;
    (apply raises_Exception_Ok || (apply raises_Exception_Raise; reflexivity)).
Qed.

Lemma cv2_resize_Exception image a b :
  raises_Exception (cv2_resize image a b).
Proof.
  unfold cv2_resize.
  destruct (_ && _); [destruct (resizes _ _)|];
    (apply raises_Exception_Ok || (apply raises_Exception_Raise; reflexivity)).
Qed.

Lemma resize_Exception image T :
  raises_Exception (resize_longest_side image T).
Proof.
  destruct image as [page [h w]]. unfold resize_longest_side. cbn [snd].
  destruct (h <? w);
    (apply raises_Exception_bind; [apply int_truediv_Exception|]; intros ? _;
     apply raises_Exception_bind; [apply int_mul_float_Exception|]; intros ? _;
     apply raises_Exception_bind; [apply int_of_float_Exception|]; intros ? _;
     apply cv2_resize_Exception).
Qed.

Lemma getitem_Exception o k : raises_Exception (getitem o k).
Proof.
  unfold getitem. destruct o; try (apply raises_Exception_Raise; reflexivity).
  destruct (dict_get k d);
    (apply raises_Exception_Ok || (apply raises_Exception_Raise; reflexivity)).
Qed.

Lemma py_iter_Exception o : raises_Exception (py_iter o).
Proof.
  destruct o; simpl;
    (apply raises_Exception_Ok || (apply raises_Exception_Raise; reflexivity)).
Qed.

Lemma py_len_Exception o : raises_Exception (py_len o).
Proof.
  destruct o; simpl;
    (apply raises_Exception_Ok || (apply raises_Exception_Raise; reflexivity)).
Qed.

Lemma extract_loop_Exception items : ∀ i acc,
  raises_Exception (extract_loop i items acc).
Proof.
  induction items as [|item rest IH]; intros i acc; simpl.
  - apply raises_Exception_Ok.
  - apply raises_Exception_bind; [apply getitem_Exception|]; intros ? _.
    apply raises_Exception_bind; [apply getitem_Exception|]; intros ? _.
    apply IH.
Qed.

Lemma extract_markdown_Exception result_ :
  raises_Exception (extract_markdown_from_result result_).
Proof.
  unfold extract_markdown_from_result.
  apply raises_Exception_bind; [apply getitem_Exception|]; intros ? _.
  apply raises_Exception_bind; [apply py_iter_Exception|]; intros ? _.
  apply extract_loop_Exception.
Qed.

Lemma process_layout_parsing_result_Exception response :
  raises_Exception (process_layout_parsing_result response).
Proof.
  unfold process_layout_parsing_result.
  destruct (_ =? _); [|apply raises_Exception_Raise; reflexivity].
  destruct (body response);
    [apply getitem_Exception | apply raises_Exception_Raise; reflexivity].
Qed.

Lemma line_stats_Exception content : raises_Exception (line_stats content).
Proof.
  unfold line_stats.
  apply raises_Exception_bind; [apply py_len_Exception|]; intros ? _.
  destruct (has_count content);
    (apply raises_Exception_Ok || (apply raises_Exception_Raise; reflexivity)).
Qed.

Lemma for_each_Exception {A} (f : A → result ()) l :
  (∀ x, raises_Exception (f x)) → raises_Exception (for_each f l).
Proof.
  intros Hf. induction l as [|x l IH]; simpl.
  - apply raises_Exception_Ok.
  - apply raises_Exception_bind; [apply Hf|]. intros ? _. exact IH.
Qed.

Lemma total_chars_Exception l : raises_Exception (total_chars l).
Proof.
  induction l as [|page rest IH]; simpl.
  - apply raises_Exception_Ok.
  - apply raises_Exception_bind.
    { unfold md_content.
      apply raises_Exception_bind; [apply getitem_Exception|]; intros ? _.
      apply raises_Exception_bind; [apply getitem_Exception|]; intros ? _.
      apply raises_Exception_bind; [apply getitem_Exception|]; intros ? _.
      apply getitem_Exception. }
    intros ? _.
    apply raises_Exception_bind; [apply py_len_Exception|]; intros ? _.
    apply raises_Exception_bind; [exact IH|]; intros ? _.
    apply raises_Exception_Ok.
Qed.

Lemma save_pages_Exception pages : ∀ i dir paths,
  raises_Exception (save_pages i pages dir paths).2.
Proof.
  induction pages as [|page rest IH]; intros i dir paths; simpl.
  - apply raises_Exception_Ok.
  - destruct (renders page); [apply IH | apply raises_Exception_Raise; reflexivity].
Qed.

Lemma pdf_to_images_Exception pdf_input fs0 :
  raises_Exception (pdf_to_images pdf_input fs0).2.
Proof.
  unfold pdf_to_images.
  destruct (tmp fs0 !! pdf_input) as [[|pages]|]; simpl;
    try (apply raises_Exception_Raise; reflexivity).
  pose proof (save_pages_Exception pages 0 (default ∅ (temp_pdf_images fs0)) []) as H.
  destruct (save_pages _ _ _ _) as [d r]. exact H.
Qed.

Section Propagation.

Variable service : string → json → result HttpResponse.
Hypothesis service_Exception : ∀ api_url payload,
  raises_Exception (service api_url payload).

Lemma process_image_Exception api_url T fs0 i p :
  raises_Exception (process_image service api_url T fs0 i p).
Proof.
  unfold process_image. destruct (cv2_imread fs0 p) as [image|];
    [|apply raises_Exception_Ok].
  apply raises_Exception_bind; [apply resize_Exception|];
    intros [page sh] _.
  apply raises_Exception_bind.
  { unfold encode_image_to_base64. destruct (imencode _ _);
      (apply raises_Exception_Ok || (apply raises_Exception_Raise; reflexivity)). }
  intros ? _.
  apply raises_Exception_bind; [apply service_Exception|]; intros ? _.
  apply raises_Exception_bind; [apply process_layout_parsing_result_Exception|]; intros ? _.
  apply raises_Exception_bind; [apply extract_markdown_Exception|]; intros ? _.
  apply raises_Exception_bind.
  { apply for_each_Exception. intros ?. apply line_stats_Exception. }
  intros ? _. apply raises_Exception_Ok.
Qed.

Lemma pages_loop_Exception api_url T fs0 paths : ∀ i acc,
  raises_Exception (pages_loop service api_url T fs0 i paths acc).
Proof.
  induction paths as [|p rest IH]; intros i acc; simpl.
  - apply raises_Exception_Ok.
  - apply raises_Exception_bind; [apply process_image_Exception|]; intros ? _.
    apply IH.
Qed.

Lemma process_pdf_file_Exception pdf_input api_url T fs0 :
  raises_Exception (process_pdf_file service pdf_input api_url T fs0).2.
Proof.
  unfold process_pdf_file.
  pose proof (pdf_to_images_Exception pdf_input fs0) as H.
  destruct (pdf_to_images pdf_input fs0) as [fs1 paths]. simpl in *.
  apply raises_Exception_bind; [exact H|]; intros ? _.
  apply raises_Exception_bind; [apply pages_loop_Exception|]; intros ? _.
  apply raises_Exception_bind; [apply total_chars_Exception|]; intros ? _.
  apply raises_Exception_Ok.
Qed.

Lemma process_upload_Exception rt req fs0 :
  raises_Exception (process_upload service rt req fs0).2.
Proof.
  destruct (store rt) eqn:Hstore;
    [|rewrite process_upload_not_stored by congruence;
      apply raises_Exception_Raise; reflexivity..].
  rewrite (process_upload_result _ _ _ _ Hstore). unfold response_of.
  apply raises_Exception_bind; [apply process_pdf_file_Exception|]; intros ? _.
  apply raises_Exception_bind; [apply py_len_Exception|]; intros ? _.
  unfold make_JSONResponse. destruct (json_finite _);
    (apply raises_Exception_Ok || (apply raises_Exception_Raise; reflexivity)).
Qed.

End Propagation.

Lemma response_of_status req x response :
  response_of req x = Ok response → status response = 200.
Proof.
  unfold response_of. intros H.
  apply bind_Ok in H as (text & _ & H).
  apply bind_Ok in H as (n & _ & H).
  unfold make_JSONResponse in H. destruct (json_finite _); [|discriminate H].
  inversion H. reflexivity.
Qed.



(* ===================================================================== *)
(** * Further properties: admission and cancellation                      *)
(* ===================================================================== *)

(** X20: when the event loop does not get to run [acquire()] before the
    zero timeout of [asyncio.wait_for] cancels it, a request is turned
    away with 429 although the semaphore is free: the permit is not
    taken and nothing is read or written. *)
Theorem free_semaphore_still_answers_429 service rt req ev w :
  acquire_runs rt = false →
  process_pdf service rt req ev w = (w, Raise busy).
Proof.
  intros Hruns. unfold process_pdf.
  destruct (process_pdf_begin_cases rt req w) as [H|(_ & Hr & _)].
  - rewrite H. reflexivity.
  - congruence.
Qed.

Lemma free_semaphore_still_answers_429_witness :
  process_pdf Examples.service
    Scenarios.standard_runtime
    (Examples.upload "scan.pdf" [Examples.page_1]) ReadCompleted Examples.idle
  = (Examples.idle, Raise busy).
Proof.
  apply (free_semaphore_still_answers_429 Examples.service
           Scenarios.standard_runtime
           (Examples.upload "scan.pdf" [Examples.page_1])
           ReadCompleted Examples.idle).
  reflexivity.
Defined.

(** X21: a request cancelled while its upload is read leaves no trace:
    the [CancelledError] passes the [except Exception] clause unchanged
    instead of becoming a 500, the permit is given back, and no
    temporary file or image directory was ever created. *)
Theorem cancelled_upload_leaves_no_trace service rt req w value :
  admission rt (processing_semaphore w) = Ok value →
  endswith (lower (filename req)) ".pdf" = true →
  process_pdf service rt req ReadCancelled w = (w, Raise CancelledError).
Proof.
  intros Hadm Hpdf. unfold process_pdf, process_pdf_begin.
  rewrite Hadm, Hpdf. simpl. unfold process_pdf_resume. simpl. f_equal.
  apply admission_Ok in Hadm as (-> & Hl & _).
  apply world_eq; simpl; [|reflexivity].
  apply release_after_acquire, Hl.
Qed.

Lemma cancelled_upload_leaves_no_trace_witness :
  process_pdf Examples.service Examples.runtime
    (Examples.upload "scan.pdf" [Examples.page_1]) ReadCancelled Examples.idle
  = (Examples.idle, Raise CancelledError).
Proof.
  apply (cancelled_upload_leaves_no_trace Examples.service Examples.runtime
           (Examples.upload "scan.pdf" [Examples.page_1]) Examples.idle 0%nat);
    reflexivity.
Defined.

(* ===================================================================== *)
(** * Further properties: requests interleaved by the event loop          *)
(* ===================================================================== *)

Section EventLoopFacts.

Variable service : string → json → result HttpResponse.

Lemma serve_event_one_permit e s :
  one_permit s → one_permit (serve_event service e s).1.
Proof.
  unfold one_permit. intros Hinv. destruct e as [rt req|k ev]; simpl.
  - destruct (process_pdf_begin_cases rt req (world s)) as [H|(Hl & _ & H)].
    + rewrite H. simpl. exact Hinv.
    + destruct (endswith (lower (filename req)) ".pdf"); rewrite H; simpl.
      * rewrite length_app. simpl.
        unfold Semaphore.locked in Hl.
        destruct (processing_semaphore (world s)); [discriminate Hl|].
        simpl. lia.
      * exact Hinv.
  - destruct (suspended s !! k) as [[rt req]|] eqn:Hk; [|exact Hinv].
    pose proof (process_pdf_resume_semaphore service rt req ev (world s)) as Hsem.
    destruct (process_pdf_resume service rt req ev (world s)) as [w r].
    simpl in *. rewrite Hsem. unfold Semaphore.release.
    rewrite length_delete by (rewrite Hk; eauto).
    apply lookup_lt_Some in Hk. lia.
Qed.

Lemma serve_one_permit events : ∀ s,
  one_permit s → one_permit (serve service events s).1.
Proof.
  induction events as [|e rest IH]; intros s Hinv; simpl; [exact Hinv|].
  pose proof (serve_event_one_permit e s Hinv) as H1.
  destruct (serve_event service e s) as [s1 answer].
  specialize (IH s1 H1).
  destruct (serve service rest s1) as [s2 answers]. exact IH.
Qed.

End EventLoopFacts.

(** X14: however requests arrive and suspended handlers are resumed
    or cancelled, a server started with the one permit never has more
    than one request past the admission check; the permits left and the
    requests under way always add up to one, and while a request is
    under way every arrival is answered 429 and changes nothing. *)
Theorem at_most_one_request_in_the_pipeline service events fs0 rt req :
  let s := (serve service events (started fs0)).1 in
  (length (suspended s) ≤ 1)%nat ∧
  (processing_semaphore (world s) + length (suspended s) = 1)%nat ∧
  (suspended s ≠ [] →
   serve_event service (Arrives rt req) s = (s, Some (Raise busy))).
Proof.
  intros s.
  assert (Hinv : one_permit s).
  { apply serve_one_permit. reflexivity. }
  unfold one_permit in Hinv. split; [lia|]. split; [exact Hinv|].
  intros Hne. simpl.
  rewrite begin_locked.
  - destruct s; reflexivity.
  - unfold Semaphore.locked. destruct (suspended s); [congruence|].
    simpl in Hinv. replace (processing_semaphore (world s)) with 0%nat by lia.
    reflexivity.
Qed.

(* ===================================================================== *)
(** * Further properties: the file name and the uploaded bytes            *)
(* ===================================================================== *)

Lemma lower_app a b : lower (a +:+ b) = lower a +:+ lower b.
Proof. induction a as [|c a IH]; simpl; [reflexivity | rewrite IH; reflexivity]. Qed.

Lemma length_string_app a b :
  String.length (a +:+ b) = (String.length a + String.length b)%nat.
Proof. induction a as [|c a IH]; simpl; [reflexivity | rewrite IH; reflexivity]. Qed.

Lemma substring_all s : String.substring 0 (String.length s) s = s.
Proof. induction s as [|c s IH]; simpl; [reflexivity | rewrite IH; reflexivity]. Qed.

Lemma substring_app a s :
  String.substring (String.length a) (String.length s) (a +:+ s) = s.
Proof. induction a as [|c a IH]; simpl; [apply substring_all | exact IH]. Qed.

Lemma endswith_app a s : endswith (a +:+ s) s = true.
Proof.
  unfold endswith. rewrite length_string_app.
  replace (String.length a + String.length s - String.length s)%nat
    with (String.length a) by lia.
  rewrite substring_app, String.eqb_refl.
  rewrite andb_true_r. apply Nat.leb_le. lia.
Qed.

(** X15: the suffix check ignores case: an admitted upload whose name
    ends in [.pdf] in any mix of upper and lower case passes it, and the
    handler goes on to read the upload, holding the semaphore. *)
Theorem pdf_suffix_in_any_case rt req w value stem suffix :
  admission rt (processing_semaphore w) = Ok value →
  filename req = stem +:+ suffix →
  lower suffix = ".pdf" →
  process_pdf_begin rt req w = (set_semaphore value w, AwaitFileRead).
Proof.
  intros Hadm Hname Hsuffix. unfold process_pdf_begin.
  rewrite Hadm, Hname, lower_app, Hsuffix, endswith_app. reflexivity.
Qed.

Lemma pdf_suffix_in_any_case_witness :
  process_pdf_begin Examples.runtime (Examples.upload "Scan.PDF" []) Examples.idle
    = (set_semaphore 0 Examples.idle, AwaitFileRead).
Proof.
  apply (pdf_suffix_in_any_case Examples.runtime (Examples.upload "Scan.PDF" [])
           Examples.idle 0%nat "Scan" ".PDF"); reflexivity.
Defined.

(** X16: an admitted upload that is named like a PDF, is stored, and
    whose bytes [fitz.open] then rejects is answered 500; afterwards the
    semaphore counter is what it was, the temporary copy of the upload is
    deleted and the image directory, created before the bytes were
    opened, is removed.  (Bytes of another type that [fitz.open]
    recognises from their content are opened as a document and processed
    like one.) *)
Theorem corrupt_upload_answers_500 service rt req w value :
  admission rt (processing_semaphore w) = Ok value →
  store rt = Stored →
  endswith (lower (filename req)) ".pdf" = true →
  file req = Unopenable →
  http_status (process_pdf service rt req ReadCompleted w).2 = Some 500 ∧
  (process_pdf service rt req ReadCompleted w).1
    = {| processing_semaphore := processing_semaphore w;
         fs := {| temp_pdf_images := None;
                  tmp := delete (temp_file_path rt) (tmp (fs w)) |} |}.
Proof.
  intros Hadm Hstore Hpdf Hfile. split.
  - rewrite (process_pdf_completed _ _ _ _ _ Hadm Hpdf).
    rewrite (process_upload_result _ _ _ _ Hstore).
    unfold process_pdf_file, pdf_to_images.
    rewrite upload_stored, Hfile. reflexivity.
  - apply world_eq; simpl.
    + apply process_pdf_semaphore.
    + unfold process_pdf, process_pdf_begin. rewrite Hadm, Hpdf. simpl.
      rewrite process_pdf_resume_fs. unfold after_upload. rewrite Hstore.
      reflexivity.
Qed.

Lemma corrupt_upload_answers_500_witness :
  http_status
    (process_pdf Examples.service Examples.runtime
       Scenarios.mislabelled
       ReadCompleted Examples.idle).2 = Some 500 ∧
  (process_pdf Examples.service Examples.runtime
     Scenarios.mislabelled
     ReadCompleted Examples.idle).1
    = {| processing_semaphore := 1;
         fs := {| temp_pdf_images := None;
                  tmp := delete Examples.path ∅ |} |}.
Proof.
  apply (corrupt_upload_answers_500 Examples.service Examples.runtime
           Scenarios.mislabelled
           Examples.idle 0%nat); reflexivity.
Defined.

(** X17: for an admitted request whose upload is stored, a document
    none of whose page images can be read back is not an error: every
    page is skipped, the service is never consulted, and the request is
    answered 200 with [total_pages] 0 and no results, however many pages
    the document has, none included. *)
Theorem unreadable_pages_answer_empty_success service rt req w value pages :
  admission rt (processing_semaphore w) = Ok value →
  store rt = Stored →
  endswith (lower (filename req)) ".pdf" = true →
  file req = Document pages →
  Forall (fun page => renders page = true ∧ imread page = None) pages →
  (process_pdf service rt req ReadCompleted w).2
    = Ok {| content :=
              JDict [("success", JBool true);
                     ("filename", JStr (filename req));
                     ("total_pages", JInt 0);
                     ("results", JList [])];
            status := 200 |}.
Proof.
  intros Hadm Hstore Hpdf Hfile Hall.
  rewrite (process_pdf_completed _ _ _ _ _ Hadm Hpdf).
  rewrite (process_upload_result _ _ _ _ Hstore).
  pose proof (upload_stored rt req (fs w)) as Hin.
  rewrite Hfile in Hin at 2.
  rewrite (process_pdf_file_result _ _ _ _ _ _ Hin).
  2:{ eapply Forall_impl; [exact Hall|]. intros page [Hr _]. exact Hr. }
  assert (Hc : ∀ i acc,
            collect service (api_url req) (longest_side req) i pages acc = Ok acc).
  { clear Hin Hfile. induction Hall as [|page rest [_ Hread] _ IH]; intros i acc; simpl.
    - reflexivity.
    - unfold page_entries. rewrite Hread. simpl. rewrite app_nil_r. apply IH. }
  rewrite Hc. reflexivity.
Qed.

Lemma unreadable_pages_answer_empty_success_witness :
  (process_pdf Examples.service Examples.runtime
     (Examples.upload "blank.pdf" [Examples.unreadable; Examples.unreadable])
     ReadCompleted Examples.idle).2
  = Ok {| content :=
            JDict [("success", JBool true);
                   ("filename", JStr "blank.pdf");
                   ("total_pages", JInt 0);
                   ("results", JList [])];
          status := 200 |}.
Proof.
  apply (unreadable_pages_answer_empty_success Examples.service Examples.runtime
           (Examples.upload "blank.pdf" [Examples.unreadable; Examples.unreadable])
           Examples.idle 0%nat [Examples.unreadable; Examples.unreadable]).
  - reflexivity.
  - reflexivity.
  - reflexivity.
  - reflexivity.
  - repeat constructor.
Defined.

(* ===================================================================== *)
(** * Further properties: the encoding of an image                        *)
(* ===================================================================== *)

Ltac N_arith := zify; Z.to_euclidean_division_equations; lia.

Lemma value_digit n : (n < 64)%N → Base64.value (Base64.digit n) = Some n.
Proof.
  intros Hn. destruct n as [|p]; [reflexivity|].
  do 6 (destruct p as [p|p|]; try reflexivity); lia.
Qed.

Lemma digit_not_pad n : (n < 64)%N → Ascii.eqb (Base64.digit n) Base64.pad = false.
Proof.
  intros Hn. destruct n as [|p]; [reflexivity|].
  do 6 (destruct p as [p|p|]; try reflexivity); lia.
Qed.

Lemma list_ind3 {A} (P : list A → Prop) :
  P [] → (∀ a, P [a]) → (∀ a b, P [a; b]) →
  (∀ a b c l, P l → P (a :: b :: c :: l)) →
  ∀ l, P l.
Proof.
  intros H0 H1 H2 H3.
  assert (H : ∀ l, P l ∧ (∀ a, P (a :: l)) ∧ (∀ a b, P (a :: b :: l))).
  { induction l as [|x l (IH0 & IH1 & IH2)].
    - auto.
    - split; [apply IH1|]. split; [intros a; apply IH2|].
      intros a b. apply H3, IH0. }
  intros l. apply H.
Qed.

Lemma b64decode_b64encode bs :
  Base64.b64decode (Base64.b64encode bs) = Some bs.
Proof.
  induction bs as [|b0|b0 b1|b0 b1 b2 rest IH] using list_ind3.
  - reflexivity.
  - pose proof (Byte.to_N_bounded b0) as H0.
    cbn [Base64.b64encode Base64.b64decode].
    set (n := (Byte.to_N b0 * 16)%N).
    rewrite !value_digit by (subst n; N_arith).
    cbn [mbind option_bind].
    change (Ascii.eqb Base64.pad Base64.pad) with true. cbv iota.
    match goal with
    | |- context [Byte.of_N ?m] =>
        replace m with (Byte.to_N b0) by (subst n; N_arith)
    end.
    rewrite Byte.of_to_N. reflexivity.
  - pose proof (Byte.to_N_bounded b0) as H0.
    pose proof (Byte.to_N_bounded b1) as H1.
    cbn [Base64.b64encode Base64.b64decode].
    set (n := ((Byte.to_N b0 * 256 + Byte.to_N b1) * 4)%N).
    rewrite !value_digit by (subst n; N_arith).
    cbn [mbind option_bind].
    change (Ascii.eqb Base64.pad Base64.pad) with true. cbv iota.
    rewrite digit_not_pad by (subst n; N_arith).
    match goal with
    | |- context [Byte.of_N (?m / 1024)] =>
        replace (m / 1024)%N with (Byte.to_N b0) by (subst n; N_arith);
        replace (m / 4 mod 256)%N with (Byte.to_N b1) by (subst n; N_arith)
    end.
    rewrite !Byte.of_to_N. reflexivity.
  - pose proof (Byte.to_N_bounded b0) as H0.
    pose proof (Byte.to_N_bounded b1) as H1.
    pose proof (Byte.to_N_bounded b2) as H2.
    cbn [Base64.b64encode Base64.b64decode].
    set (n := (Byte.to_N b0 * 65536 + Byte.to_N b1 * 256 + Byte.to_N b2)%N).
    rewrite !value_digit by (subst n; N_arith).
    cbn [mbind option_bind].
    rewrite digit_not_pad by (subst n; N_arith).
    match goal with
    | |- context [Byte.of_N (?m / 65536)] =>
        replace (m / 65536)%N with (Byte.to_N b0) by (subst n; N_arith);
        replace (m / 256 mod 256)%N with (Byte.to_N b1) by (subst n; N_arith);
        replace (m mod 256)%N with (Byte.to_N b2) by (subst n; N_arith)
    end.
    rewrite !Byte.of_to_N. cbn [mbind option_bind].
    fold Base64.b64decode. rewrite IH. reflexivity.
Qed.

(** X18: whenever [encode_image_to_base64] returns, from a file path or
    from an array, the text it returns decodes to exactly the bytes of
    the file, or of the PNG encoding of the array: nothing is lost or
    altered on the way to the service. *)
Theorem encoded_image_decodes_to_its_bytes files input image_data :
  Encoding.encode_image_to_base64 files input = Ok image_data →
  ∃ bytes,
    Encoding.image_bytes files input = Some bytes ∧
    Base64.b64decode image_data = Some bytes.
Proof.
  destruct input as [path|[png|]|]; simpl; try discriminate.
  - destruct (files !! path) as [bytes|]; [|discriminate].
    intros [= <-]. exists bytes. split; [reflexivity | apply b64decode_b64encode].
  - intros [= <-]. exists png. split; [reflexivity | apply b64decode_b64encode].
Qed.

Lemma encoded_image_decodes_to_its_bytes_witness :
  ∃ bytes,
    Some Scenarios.page1_bytes = Some bytes ∧
    Base64.b64decode "cGFnZTE=" = Some bytes.
Proof.
  apply (encoded_image_decodes_to_its_bytes ∅
           (Encoding.ArrayInput (Some Scenarios.page1_bytes))
           "cGFnZTE=").
  reflexivity.
Defined.

(* ===================================================================== *)
(** * Further properties: the command-line mode                           *)
(* ===================================================================== *)

(** With the names of its parameters the same call runs the pipeline. *)
Lemma call_process_pdf_file_by_name service pdf_input api_url T fs0 :
  Cli.call_process_pdf_file service
    [("pdf_input", JStr pdf_input); ("api_url", JStr api_url);
     ("longest_side", JInt T)] fs0
  = process_pdf_file service pdf_input api_url T fs0.
Proof. reflexivity. Qed.

(** X19: [run_cli] never processes a document.  Whatever its parser
    does with the command line, the process ends without a file read or
    written and without the service consulted: with the parser's own
    exit status when the parser ends it (2 after a usage error, 0 after
    the help), and with exit status 1 whenever the parser returns
    arguments, because the path does not exist or because the call of
    [process_pdf_file] fails on the keywords [pdf_path] and [output_dir],
    which name no parameter of the function, before its body runs. *)
Theorem run_cli_never_processes service parse fs0 :
  Cli.run_cli service parse fs0
    = (fs0,
       Cli.Exited match parse with
                  | Cli.ParserExits status => status
                  | Cli.Parsed _ => 1
                  end).
Proof.
  unfold Cli.run_cli. destruct parse as [status|args]; [reflexivity|].
  destruct (tmp fs0 !! Cli.pdf_path args); reflexivity.
Qed.
